(** * le-q: a live multiplayer quiz (Next.js clients over a Supabase database)

    The repository keeps all game state in four Postgres tables
    (rooms, players, questions, answers) and drives them from three
    React clients:

    - [HomePage]   (src/app/page.tsx):              createRoom, joinRoom
    - [HostClient] (src/app/host/[roomId]/HostClient.tsx):
                   sendQuestion, endGame, markAnswerCorrect, updatePlayerScore
    - [PlayClient] (play/[playerId]/PlayClient.tsx): loadPlayerData, submitAnswer

    Embedding.  A database is a record of four lists of rows, a client is a
    record of its React state, and every handler is a function from
    (client state, database, values supplied by the environment) to
    (client state, database, outcome).  Handlers run one at a time.

    Conventions fixed once for the whole development:

    - strings are lists of UTF-16 code units, as in JavaScript;
    - a uuid is a natural number; the value produced by gen_random_uuid()
      or crypto.randomUUID() is an argument of the handler that inserts;
    - statements fail only on the constraints of the schema (primary key,
      UNIQUE(code), foreign keys); the network does not fail, and the
      row-level-security policies admit every statement the clients issue;
    - the answers table carries the room_id column that the clients write
      and filter on (the migration in the repository does not list it);
    - the timestamp columns are left out: nothing below reads them except
      the display order of answers, which is the insertion order here;
    - timers (notification time-outs) and the storage bucket are left out. *)

From Stdlib Require Import List ZArith NArith Bool Lia String Ascii.
From Stdlib Require Import Sorted Permutation.
Import ListNotations.

Set Implicit Arguments.

(** ** JavaScript strings *)

Definition uuid := N.
Definition jsstring := list N.

(** ASCII literal to code units, for examples. *)
Definition js (s : string) : jsstring :=
  map N_of_ascii (list_ascii_of_string s).

(** ECMAScript WhiteSpace and LineTerminator code points, the ones
    String.prototype.trim strips.  All of them lie in the basic plane, so
    the test is per code unit. *)
Definition isWhiteSpace (c : N) : bool :=
  ((9 <=? c) && (c <=? 13)          (* TAB LF VT FF CR *)
   || (c =? 32)                     (* SPACE *)
   || (c =? 160)                    (* U+00A0 NBSP *)
   || (c =? 5760)                   (* U+1680 *)
   || ((8192 <=? c) && (c <=? 8202))(* U+2000 .. U+200A *)
   || (c =? 8232) || (c =? 8233)    (* U+2028 LS, U+2029 PS *)
   || (c =? 8239)                   (* U+202F *)
   || (c =? 8287)                   (* U+205F *)
   || (c =? 12288)                  (* U+3000 *)
   || (c =? 65279))%N.              (* U+FEFF *)

Fixpoint trimStart (s : jsstring) : jsstring :=
  match s with
  | [] => []
  | c :: s' => if isWhiteSpace c then trimStart s' else s
  end.

Definition trimEnd (s : jsstring) : jsstring := rev (trimStart (rev s)).

(** [s.trim()] *)
Definition trim (s : jsstring) : jsstring := trimEnd (trimStart s).

(** JavaScript truthiness of a string: the empty string is falsy. *)
Definition truthy (s : jsstring) : bool :=
  match s with [] => false | _ :: _ => true end.

(** [s.substring(a, b)] for [a <= b]. *)
Definition substring (a b : nat) (s : jsstring) : jsstring :=
  firstn (b - a) (skipn a s).

(** [s.toUpperCase()] on the letters a-z; other code units are kept.  This
    is the whole of toUpperCase on the base-36 strings that room codes are
    cut from; the case mapping of non-ASCII letters is not modelled. *)
Definition upperUnit (c : N) : N :=
  if ((97 <=? c) && (c <=? 122))%N then (c - 32)%N else c.

Definition toUpperCase (s : jsstring) : jsstring := map upperUnit s.

Definition jsstring_eqb (s t : jsstring) : bool :=
  if list_eq_dec N.eq_dec s t then true else false.

Definition opt_uuid_eqb (a : option uuid) (b : uuid) : bool :=
  match a with Some x => N.eqb x b | None => false end.

(** ** Rows (src/lib/supabase.ts and the migration) *)

Module Room.
Record t := mk
  { id : uuid; code : jsstring; name : jsstring;
    host_id : option uuid; is_active : bool }.
End Room.

Module Player.
Record t := mk
  { id : uuid; pseudo : jsstring; room_id : uuid;
    score : Z; is_connected : bool }.
Definition with_score (v : Z) (p : t) : t :=
  mk (id p) (pseudo p) (room_id p) v (is_connected p).
Definition with_is_connected (v : bool) (p : t) : t :=
  mk (id p) (pseudo p) (room_id p) (score p) v.
End Player.

Module Question.
Record t := mk
  { id : uuid; room_id : uuid; text : jsstring;
    correct_answer : option jsstring; is_active : bool }.
Definition with_is_active (v : bool) (q : t) : t :=
  mk (id q) (room_id q) (text q) (correct_answer q) v.
End Question.

(** [player] is the optional join [player:players( * )] of the TypeScript
    interface; stored rows have it empty. *)
Module Answer.
Record t := mk
  { id : uuid; player_id : uuid; question_id : uuid;
    room_id : option uuid; text : jsstring; response_time : Z;
    is_correct : bool; player : option Player.t }.
Definition with_is_correct (v : bool) (a : t) : t :=
  mk (id a) (player_id a) (question_id a) (room_id a) (text a)
     (response_time a) v (player a).
Definition with_player (v : option Player.t) (a : t) : t :=
  mk (id a) (player_id a) (question_id a) (room_id a) (text a)
     (response_time a) (is_correct a) v.
End Answer.

(** ** The database *)

Module Db.
Record t := mk
  { rooms : list Room.t; players : list Player.t;
    questions : list Question.t; answers : list Answer.t }.
End Db.

Definition emptyDb : Db.t := Db.mk [] [] [] [].

Inductive db_error := UniqueViolation | ForeignKeyViolation.

(** [q.single()]: the row when the query has exactly one row. *)
Definition single {A} (rows : list A) : option A :=
  match rows with [x] => Some x | _ => None end.

(** [update(set).eq(..)]: rewrite the rows the filter selects. *)
Definition update {A} (sel : A -> bool) (set : A -> A) (rows : list A) : list A :=
  map (fun r => if sel r then set r else r) rows.

(** [delete().eq(..)]: drop the rows the filter selects. *)
Definition delete {A} (sel : A -> bool) (rows : list A) : list A :=
  filter (fun r => negb (sel r)) rows.

Definition has_room (db : Db.t) (i : uuid) : bool :=
  existsb (fun r => N.eqb (Room.id r) i) (Db.rooms db).
Definition has_player (db : Db.t) (i : uuid) : bool :=
  existsb (fun p => N.eqb (Player.id p) i) (Db.players db).
Definition has_question (db : Db.t) (i : uuid) : bool :=
  existsb (fun q => N.eqb (Question.id q) i) (Db.questions db).
Definition has_answer (db : Db.t) (i : uuid) : bool :=
  existsb (fun a => N.eqb (Answer.id a) i) (Db.answers db).
Definition has_code (db : Db.t) (c : jsstring) : bool :=
  existsb (fun r => jsstring_eqb (Room.code r) c) (Db.rooms db).

(** INSERT INTO rooms: primary key, UNIQUE(code). *)
Definition insert_room (db : Db.t) (r : Room.t) : db_error + Db.t :=
  if has_room db (Room.id r) || has_code db (Room.code r)
  then inl UniqueViolation
  else inr (Db.mk (Db.rooms db ++ [r]) (Db.players db) (Db.questions db) (Db.answers db)).

(** INSERT INTO players: primary key, room_id REFERENCES rooms(id). *)
Definition insert_player (db : Db.t) (p : Player.t) : db_error + Db.t :=
  if has_player db (Player.id p) then inl UniqueViolation
  else if negb (has_room db (Player.room_id p)) then inl ForeignKeyViolation
  else inr (Db.mk (Db.rooms db) (Db.players db ++ [p]) (Db.questions db) (Db.answers db)).

(** INSERT INTO questions: primary key, room_id REFERENCES rooms(id). *)
Definition insert_question (db : Db.t) (q : Question.t) : db_error + Db.t :=
  if has_question db (Question.id q) then inl UniqueViolation
  else if negb (has_room db (Question.room_id q)) then inl ForeignKeyViolation
  else inr (Db.mk (Db.rooms db) (Db.players db) (Db.questions db ++ [q]) (Db.answers db)).

(** INSERT INTO answers: primary key, player_id REFERENCES players(id),
    question_id REFERENCES questions(id).  No uniqueness constraint ties
    (player_id, question_id). *)
Definition insert_answer (db : Db.t) (a : Answer.t) : db_error + Db.t :=
  if has_answer db (Answer.id a) then inl UniqueViolation
  else if negb (has_player db (Answer.player_id a)) then inl ForeignKeyViolation
  else if negb (has_question db (Answer.question_id a)) then inl ForeignKeyViolation
  else inr (Db.mk (Db.rooms db) (Db.players db) (Db.questions db) (Db.answers db ++ [a])).

(** DELETE FROM answers WHERE sel. *)
Definition delete_answers (sel : Answer.t -> bool) (db : Db.t) : Db.t :=
  Db.mk (Db.rooms db) (Db.players db) (Db.questions db) (delete sel (Db.answers db)).

(** DELETE FROM questions WHERE sel, with ON DELETE CASCADE into answers. *)
Definition delete_questions (sel : Question.t -> bool) (db : Db.t) : Db.t :=
  let gone := filter sel (Db.questions db) in
  Db.mk (Db.rooms db) (Db.players db) (delete sel (Db.questions db))
       (delete (fun a => existsb (fun q => N.eqb (Question.id q) (Answer.question_id a)) gone)
               (Db.answers db)).

(** DELETE FROM players WHERE sel, with ON DELETE CASCADE into answers. *)
Definition delete_players (sel : Player.t -> bool) (db : Db.t) : Db.t :=
  let gone := filter sel (Db.players db) in
  Db.mk (Db.rooms db) (delete sel (Db.players db)) (Db.questions db)
       (delete (fun a => existsb (fun p => N.eqb (Player.id p) (Answer.player_id a)) gone)
               (Db.answers db)).

(** DELETE FROM rooms WHERE sel, with ON DELETE CASCADE into players and
    questions (and from there into answers). *)
Definition delete_rooms (sel : Room.t -> bool) (db : Db.t) : Db.t :=
  let gone := filter sel (Db.rooms db) in
  let in_gone (i : uuid) := existsb (fun r => N.eqb (Room.id r) i) gone in
  let db1 := delete_players (fun p => in_gone (Player.room_id p)) db in
  let db2 := delete_questions (fun q => in_gone (Question.room_id q)) db1 in
  Db.mk (delete sel (Db.rooms db2)) (Db.players db2) (Db.questions db2) (Db.answers db2).

(** ** Outcomes of a handler

    The handlers return nothing; what the caller can observe is which
    branch ran.  [Returned]: a guard returned at once, silently.
    [Refused]: a guard told the user what is missing and returned.
    [Completed]: the try block ran to its end.  [Caught e]: the catch
    block ran on [e]. *)

Inductive thrown :=
| SalleIntrouvable        (* new Error("Salle introuvable ou inactive") *)
| FailedToInsertQuestion  (* new Error("Failed to insert question") *)
| JoueurIntrouvable       (* new Error("Joueur introuvable ou session expirée") *)
| DbError (e : db_error). (* the error of a supabase reply, rethrown *)

Inductive outcome :=
| Returned
| Refused
| Completed
| Caught (e : thrown).

(** ** src/lib/supabase.ts *)

(** [generateRoomCode]; [rnd] is the string [Math.random().toString(36)],
    drawn by the environment. *)
Definition generateRoomCode (rnd : jsstring) : jsstring :=
  toUpperCase (substring 2 8 rnd).

(** ** src/app/page.tsx *)

Module HomePage.

Record state := mk { roomCode : jsstring; pseudo : jsstring }.

(** [createRoom]: one draw, one insert. *)
Definition createRoom (db : Db.t) (rnd : jsstring) (host new_id : uuid)
  : Db.t * outcome :=
  match insert_room db
          (Room.mk new_id (generateRoomCode rnd) (js "Nouvelle partie")
                   (Some host) true) with
  | inl e => (db, Caught (DbError e))
  | inr db' => (db', Completed)
  end.

(** [joinRoom]; [new_id] is the id the database gives the player row,
    whose score and is_connected take the column defaults. *)
Definition joinRoom (s : state) (db : Db.t) (new_id : uuid) : Db.t * outcome :=
  let code := toUpperCase (trim (roomCode s)) in
  let name := trim (pseudo s) in
  if negb (truthy code) || negb (truthy name) then (db, Refused)
  else
    match single (filter (fun r => jsstring_eqb (Room.code r) code
                                   && Bool.eqb (Room.is_active r) true)
                         (Db.rooms db)) with
    | None => (db, Caught SalleIntrouvable)
    | Some room =>
        match insert_player db (Player.mk new_id name (Room.id room) 0 true) with
        | inl e => (db, Caught (DbError e))
        | inr db' => (db', Completed)
        end
    end.

End HomePage.

(** ** src/app/host/[roomId]/HostClient.tsx *)

Module HostClient.

(** The [{ text, answer }] objects of the question form. *)
Record QA := mkQA { text : jsstring; answer : jsstring }.

(** The props and the React state the handlers read or write. *)
Record state := mk
  { roomId : uuid;
    room : option Room.t;
    players : list Player.t;
    currentQuestion : option QA;
    answers : list Answer.t;
    isGameEnded : bool;
    manualQuestion : QA;
    showManualDialog : bool }.

Definition init (initialRoom : Room.t) (roomId : uuid) : state :=
  mk roomId (Some initialRoom) [] None [] false (mkQA [] []) false.

(** [.order("score", { ascending: false })] *)
Fixpoint insert_by_score (p : Player.t) (l : list Player.t) : list Player.t :=
  match l with
  | [] => [p]
  | q :: l' =>
      if (Player.score q <=? Player.score p)%Z then p :: l
      else q :: insert_by_score p l'
  end.

Definition order_by_score_desc (l : list Player.t) : list Player.t :=
  fold_right insert_by_score [] l.

(** [loadRoomData] *)
Definition loadRoomData (h : state) (db : Db.t) : state :=
  let roomData := single (filter (fun r => N.eqb (Room.id r) (roomId h)) (Db.rooms db)) in
  let playersData :=
    order_by_score_desc
      (filter (fun p => N.eqb (Player.room_id p) (roomId h)) (Db.players db)) in
  mk (roomId h) roomData playersData (currentQuestion h) (answers h)
     (isGameEnded h) (manualQuestion h) (showManualDialog h).

(** The join [player:players( * )] of a selected answer. *)
Definition join_player (db : Db.t) (a : Answer.t) : Answer.t :=
  Answer.with_player
    (find (fun p => N.eqb (Player.id p) (Answer.player_id a)) (Db.players db)) a.

Definition set_answers (h : state) (l : list Answer.t) : state :=
  mk (roomId h) (room h) (players h) (currentQuestion h) l
     (isGameEnded h) (manualQuestion h) (showManualDialog h).

(** [loadAnswersForQuestion] *)
Definition loadAnswersForQuestion (h : state) (db : Db.t) : state :=
  match single (filter (fun q => N.eqb (Question.room_id q) (roomId h)
                                 && Bool.eqb (Question.is_active q) true)
                       (Db.questions db)) with
  | None => set_answers h []
  | Some activeQuestion =>
      set_answers h
        (map (join_player db)
             (filter (fun a => opt_uuid_eqb (Answer.room_id a) (roomId h)
                               && N.eqb (Answer.question_id a) (Question.id activeQuestion))
                     (Db.answers db)))
  end.

(** The two realtime subscriptions of the host: a change in players runs
    [loadRoomData], a change in answers runs [loadAnswersForQuestion]. *)
Definition onPlayersChange := loadRoomData.
Definition onAnswersChange := loadAnswersForQuestion.

(** [questionData || currentQuestion] *)
Definition questionToSend (h : state) (questionData : option QA) : option QA :=
  match questionData with Some q => Some q | None => currentQuestion h end.

(** [update({ is_active: false }).eq("room_id", roomId).eq("is_active", true)] *)
Definition disablePrevious (h : state) (db : Db.t) : Db.t :=
  Db.mk (Db.rooms db) (Db.players db)
        (update (fun x => N.eqb (Question.room_id x) (roomId h)
                          && Bool.eqb (Question.is_active x) true)
                (Question.with_is_active false) (Db.questions db))
        (Db.answers db).

(** The row [sendQuestion] inserts; [new_id] is the id the database
    gives it. *)
Definition newQuestion (h : state) (q : QA) (new_id : uuid) : Question.t :=
  Question.mk new_id (roomId h) (trim (text q)) (Some (trim (answer q))) true.

(** [sendQuestion(questionData?)] *)
Definition sendQuestion (h : state) (db : Db.t) (questionData : option QA)
           (new_id : uuid) : state * Db.t * outcome :=
  match questionToSend h questionData with
  | None => (h, db, Refused)
  | Some q =>
      if negb (truthy (trim (text q))) || negb (truthy (trim (answer q)))
      then (h, db, Refused)
      else
        (* Disable previous active question *)
        let db1 := disablePrevious h db in
        (* Insert new active question *)
        let data := newQuestion h q new_id in
        match insert_question db1 data with
        | inl _ => (h, db1, Caught FailedToInsertQuestion)
        | inr db2 =>
            (* Clear existing answers *)
            let db3 :=
              delete_answers (fun a => opt_uuid_eqb (Answer.room_id a) (roomId h)) db2 in
            let h' :=
              mk (roomId h) (room h) (players h)
                 (Some (mkQA (Question.text data)
                             (match Question.correct_answer data with
                              | Some s => s | None => [] end)))
                 [] (isGameEnded h)
                 (match questionData with
                  | Some _ => mkQA [] [] | None => manualQuestion h end)
                 (match questionData with
                  | Some _ => false | None => showManualDialog h end) in
            (h', db3, Completed)
        end
  end.

(** [sendManualQuestion] *)
Definition sendManualQuestion (h : state) (db : Db.t) (new_id : uuid)
  : state * Db.t * outcome :=
  if negb (truthy (trim (text (manualQuestion h))))
     || negb (truthy (trim (answer (manualQuestion h))))
  then (h, db, Refused)
  else sendQuestion h db (Some (manualQuestion h)) new_id.

(** [endGame]; [confirmed] is the answer to window.confirm. *)
Definition endGame (h : state) (db : Db.t) (confirmed : bool)
  : state * Db.t * outcome :=
  if negb confirmed then (h, db, Returned)
  else
    let db1 := delete_answers (fun a => opt_uuid_eqb (Answer.room_id a) (roomId h)) db in
    let db2 := delete_questions (fun q => N.eqb (Question.room_id q) (roomId h)) db1 in
    let db3 := delete_players (fun p => N.eqb (Player.room_id p) (roomId h)) db2 in
    let db4 := delete_rooms (fun r => N.eqb (Room.id r) (roomId h)) db3 in
    (mk (roomId h) None [] None [] true (manualQuestion h) (showManualDialog h),
     db4, Completed).

(** [markAnswerCorrect(answer)]; [score || 0] is [score] on integers. *)
Definition markAnswerCorrect (h : state) (db : Db.t) (a : Answer.t)
  : state * Db.t * outcome :=
  if Answer.is_correct a then (h, db, Returned)
  else
    let newScore :=
      (match Answer.player a with
       | Some p => Player.score p
       | None => 0
       end + 1)%Z in
    let db' :=
      Db.mk (Db.rooms db)
           (update (fun p => N.eqb (Player.id p) (Answer.player_id a))
                   (Player.with_score newScore) (Db.players db))
           (Db.questions db)
           (update (fun x => N.eqb (Answer.id x) (Answer.id a))
                   (Answer.with_is_correct true) (Db.answers db)) in
    (loadRoomData (loadAnswersForQuestion h db') db', db', Completed).

(** [updatePlayerScore(playerId, amount)] *)
Definition updatePlayerScore (h : state) (db : Db.t) (playerId : uuid) (amount : Z)
  : state * Db.t * outcome :=
  match find (fun p => N.eqb (Player.id p) playerId) (players h) with
  | None => (h, db, Returned)
  | Some player =>
      let newScore := Z.max 0 (Player.score player + amount) in
      let set := update (fun p => N.eqb (Player.id p) playerId)
                        (Player.with_score newScore) in
      (mk (roomId h) (room h) (set (players h)) (currentQuestion h) (answers h)
          (isGameEnded h) (manualQuestion h) (showManualDialog h),
       Db.mk (Db.rooms db) (set (Db.players db)) (Db.questions db) (Db.answers db),
       Completed)
  end.

End HostClient.

(** ** src/app/play/[playerId]/PlayClient.tsx *)

Module PlayClient.

(** The prop, the ref and the React state the handlers read or write. *)
Record state := mk
  { playerId : uuid;
    player : option Player.t;
    currentQuestion : option Question.t;
    answer : jsstring;
    hasAnswered : bool;
    isSubmitting : bool;
    questionStartTime : Z;
    responseTime : option Z;
    playerRoomIdRef : option uuid }.

Definition init (playerId : uuid) : state :=
  mk playerId None None [] false false 0 None None.

(** [updateConnectionStatus(connected)] as called from [loadPlayerData]:
    [player] is the state of the render that created the callback, the
    ref has just been assigned. *)
Definition updateConnectionStatus (c : state) (ref : option uuid) (db : Db.t)
           (connected : bool) : Db.t :=
  match player c, ref with
  | Some _, Some _ =>
      Db.mk (Db.rooms db)
            (update (fun p => N.eqb (Player.id p) (playerId c))
                    (Player.with_is_connected connected) (Db.players db))
            (Db.questions db) (Db.answers db)
  | _, _ => db
  end.

(** [loadPlayerData]; [now] is Date.now(). *)
Definition loadPlayerData (c : state) (db : Db.t) (now : Z)
  : state * Db.t * outcome :=
  match single (filter (fun p => N.eqb (Player.id p) (playerId c)) (Db.players db)) with
  | None => (c, db, Caught JoueurIntrouvable)
  | Some playerData =>
      let ref := Some (Player.room_id playerData) in
      let db' := updateConnectionStatus c ref db true in
      match single (filter (fun q => N.eqb (Question.room_id q) (Player.room_id playerData)
                                     && Bool.eqb (Question.is_active q) true)
                           (Db.questions db')) with
      | None =>
          (mk (playerId c) (Some playerData) None [] false (isSubmitting c)
              (questionStartTime c) None ref, db', Completed)
      | Some questionData =>
          match single (filter (fun a => N.eqb (Answer.player_id a) (playerId c)
                                         && N.eqb (Answer.question_id a) (Question.id questionData))
                               (Db.answers db')) with
          | Some existingAnswer =>
              (mk (playerId c) (Some playerData) (Some questionData)
                  (Answer.text existingAnswer) true (isSubmitting c) now
                  (Some (Answer.response_time existingAnswer)) ref, db', Completed)
          | None =>
              (mk (playerId c) (Some playerData) (Some questionData)
                  [] false (isSubmitting c) now None ref, db', Completed)
          end
      end
  end.

(** [setAnswer(e.target.value)]: the player types into the input. *)
Definition setAnswer (c : state) (v : jsstring) : state :=
  mk (playerId c) (player c) (currentQuestion c) v (hasAnswered c)
     (isSubmitting c) (questionStartTime c) (responseTime c) (playerRoomIdRef c).

(** [submitAnswer]; [now] is Date.now(), [new_id] the id the database
    gives the row. *)
Definition submitAnswer (c : state) (db : Db.t) (now : Z) (new_id : uuid)
  : state * Db.t * outcome :=
  match currentQuestion c with
  | None => (c, db, Returned)
  | Some q =>
      if negb (truthy (trim (answer c))) || hasAnswered c || isSubmitting c
      then (c, db, Returned)
      else
        let responseTimeMs := (now - questionStartTime c)%Z in
        match insert_answer db
                (Answer.mk new_id (playerId c) (Question.id q) (playerRoomIdRef c)
                           (trim (answer c)) responseTimeMs false None) with
        | inl e =>
            (mk (playerId c) (player c) (currentQuestion c) (answer c)
                (hasAnswered c) false (questionStartTime c) None
                (playerRoomIdRef c), db, Caught (DbError e))
        | inr db' =>
            (mk (playerId c) (player c) (currentQuestion c) (answer c)
                true false (questionStartTime c) (Some responseTimeMs)
                (playerRoomIdRef c), db', Completed)
        end
  end.

End PlayClient.

(** ** A small game, to run the handlers on

    Room 1 with code ABC123, Alice (player 10) and Bob (player 11). *)

Module Demo.

Local Open Scope N_scope.

Definition db_room : Db.t :=
  fst (HomePage.createRoom emptyDb (js "0.abc123xyz") 7 1).

Definition db_alice : Db.t :=
  fst (HomePage.joinRoom (HomePage.mk (js " abc123 ") (js "Alice")) db_room 10).

Definition db_players : Db.t :=
  fst (HomePage.joinRoom (HomePage.mk (js "ABC123") (js "Bob ")) db_alice 11).

Definition the_room : Room.t :=
  Room.mk 1 (js "ABC123") (js "Nouvelle partie") (Some 7) true.

Definition host0 : HostClient.state :=
  HostClient.loadRoomData (HostClient.init the_room 1) db_players.

(** The host sends "2+2?" / "4" as question 20. *)
Definition sent1 :=
  HostClient.sendQuestion host0 db_players
    (Some (HostClient.mkQA (js "2+2? ") (js " 4"))) 20.
Definition host1 : HostClient.state := fst (fst sent1).
Definition db_q1 : Db.t := snd (fst sent1).

(** Alice and Bob open the play page and answer (answers 30 and 31). *)
Definition alice0 : PlayClient.state :=
  fst (fst (PlayClient.loadPlayerData (PlayClient.init 10) db_q1 1000%Z)).
Definition bob0 : PlayClient.state :=
  fst (fst (PlayClient.loadPlayerData (PlayClient.init 11) db_q1 1000%Z)).

Definition answered_a :=
  PlayClient.submitAnswer (PlayClient.setAnswer alice0 (js " 4 ")) db_q1 2200%Z 30.
Definition alice1 : PlayClient.state := fst (fst answered_a).
Definition db_a : Db.t := snd (fst answered_a).

Definition answered_b :=
  PlayClient.submitAnswer (PlayClient.setAnswer bob0 (js "five")) db_a 2500%Z 31.
Definition bob1 : PlayClient.state := fst (fst answered_b).
Definition db_ab : Db.t := snd (fst answered_b).

(** The host's answers subscription fires. *)
Definition host2 : HostClient.state := HostClient.onAnswersChange host1 db_ab.

(** The host gives Alice a point by hand (+1 button); the players
    subscription fires. *)
Definition adjusted := HostClient.updatePlayerScore host2 db_ab 10 1%Z.
Definition db_adj : Db.t := snd (fst adjusted).
Definition host3 : HostClient.state :=
  HostClient.onPlayersChange (fst (fst adjusted)) db_adj.

(** The host then clicks "Correct" on Alice's answer as the page shows it. *)
Definition alice_answer : option Answer.t :=
  find (fun a => N.eqb (Answer.id a) 30) (HostClient.answers host3).
Definition marked :=
  match alice_answer with
  | Some a => HostClient.markAnswerCorrect host3 db_adj a
  | None => (host3, db_adj, Returned)
  end.
Definition db_marked : Db.t := snd (fst marked).

(** The host ends the game. *)
Definition ended := HostClient.endGame host2 db_ab true.
Definition db_end : Db.t := snd (fst ended).

End Demo.

(** ** Vocabulary of the properties *)

(** The active questions of room [r]. *)
Definition active_in (r : uuid) (q : Question.t) : bool :=
  N.eqb (Question.room_id q) r && Question.is_active q.

Definition activeQuestions (db : Db.t) (r : uuid) : list Question.t :=
  filter (active_in r) (Db.questions db).

Definition at_most_one_active (db : Db.t) : Prop :=
  forall r, (List.length (activeQuestions db r) <= 1)%nat.


Definition blank (s : jsstring) : Prop := trim s = [].

(** What one call does to the database, branch by branch. *)
Inductive sendQuestion_result (h : HostClient.state) (db : Db.t)
          (qd : option HostClient.QA) (i : uuid)
  : HostClient.state -> Db.t -> outcome -> Prop :=
| SQ_refused :
    (forall q, HostClient.questionToSend h qd = Some q ->
               blank (HostClient.text q) \/ blank (HostClient.answer q)) ->
    sendQuestion_result h db qd i h db Refused
| SQ_caught q :
    HostClient.questionToSend h qd = Some q ->
    ~ blank (HostClient.text q) -> ~ blank (HostClient.answer q) ->
    has_question db i = true \/ has_room db (HostClient.roomId h) = false ->
    sendQuestion_result h db qd i h (HostClient.disablePrevious h db)
                        (Caught FailedToInsertQuestion)
| SQ_completed q h' :
    HostClient.questionToSend h qd = Some q ->
    ~ blank (HostClient.text q) -> ~ blank (HostClient.answer q) ->
    has_question db i = false -> has_room db (HostClient.roomId h) = true ->
    HostClient.roomId h' = HostClient.roomId h ->
    HostClient.answers h' = [] ->
    HostClient.currentQuestion h' =
      Some (HostClient.mkQA (trim (HostClient.text q)) (trim (HostClient.answer q))) ->
    sendQuestion_result h db qd i h'
      (Db.mk (Db.rooms db) (Db.players db)
             (Db.questions (HostClient.disablePrevious h db)
                ++ [HostClient.newQuestion h q i])
             (delete (fun a => opt_uuid_eqb (Answer.room_id a) (HostClient.roomId h))
                     (Db.answers db)))
      Completed.


(** The scores stored for player [i] (one row when ids are unique). *)
Definition storedScores (db : Db.t) (i : uuid) : list Z :=
  map Player.score (filter (fun p => N.eqb (Player.id p) i) (Db.players db)).

Definition scores_nonneg (db : Db.t) : Prop :=
  forall p, In p (Db.players db) -> (0 <= Player.score p)%Z.

(** A sequence of [updatePlayerScore] calls by one host. *)
Fixpoint updatePlayerScores (h : HostClient.state) (db : Db.t)
         (calls : list (uuid * Z))
  : list (HostClient.state * Db.t * outcome) :=
  match calls with
  | [] => []
  | (playerId, amount) :: rest =>
      let r := HostClient.updatePlayerScore h db playerId amount in
      r :: updatePlayerScores (fst (fst r)) (snd (fst r)) rest
  end.

(** The answers stored for the pair (player [p], question [q]). *)
Definition answersFor (db : Db.t) (p q : uuid) : list Answer.t :=
  filter (fun a => N.eqb (Answer.player_id a) p && N.eqb (Answer.question_id a) q)
         (Db.answers db).

(** UNIQUE(code) on rooms, as a property of the table. *)
Definition codes_unique (db : Db.t) : Prop := NoDup (map Room.code (Db.rooms db)).

(** ** The pages that mount the clients *)

(** src/app/host/[roomId]/page.tsx, [HostPage]: [None] is notFound(). *)
Definition HostPage (db : Db.t) (roomId : uuid) : option HostClient.state :=
  match single (filter (fun r => N.eqb (Room.id r) roomId) (Db.rooms db)) with
  | None => None
  | Some room => Some (HostClient.init room roomId)
  end.

(** src/app/play/[playerId]/page.tsx, [PlayPage]: [None] is notFound(). *)
Definition PlayPage (db : Db.t) (playerId : uuid) : option PlayClient.state :=
  match single (filter (fun p => N.eqb (Player.id p) playerId) (Db.players db)) with
  | None => None
  | Some _ => Some (PlayClient.init playerId)
  end.

(** ** PlayClient: the realtime subscriptions *)

Module PlayEvents.

(** A postgres_changes payload on the questions table, filtered on the
    player's room: the event type with the row it carries. *)
Inductive questions_event :=
| INSERT (new : Question.t)
| UPDATE (new : Question.t)
| DELETE (old : Question.t).

(** The branch shared by INSERT and UPDATE of an active question. *)
Definition newQuestion (c : PlayClient.state) (q : Question.t) (now : Z)
  : PlayClient.state :=
  PlayClient.mk (PlayClient.playerId c) (PlayClient.player c) (Some q) []
                false (PlayClient.isSubmitting c) now None
                (PlayClient.playerRoomIdRef c).

(** The handler of the questions channel; [now] is Date.now(). *)
Definition onQuestionsChange (c : PlayClient.state) (payload : questions_event)
           (now : Z) : PlayClient.state :=
  match payload with
  | INSERT new => if Question.is_active new then newQuestion c new now else c
  | UPDATE new =>
      if Question.is_active new then newQuestion c new now
      else
        match PlayClient.currentQuestion c with
        | Some q =>
            if N.eqb (Question.id q) (Question.id new)
            then PlayClient.mk (PlayClient.playerId c) (PlayClient.player c) None []
                               false (PlayClient.isSubmitting c)
                               (PlayClient.questionStartTime c) None
                               (PlayClient.playerRoomIdRef c)
            else c
        | None => c
        end
  | DELETE _ => c
  end.

(** [playersData] of [loadPlayerData] and of the players channel: the
    players of the room, highest score first. *)
Definition playersData (db : Db.t) (roomId : uuid) : list Player.t :=
  HostClient.order_by_score_desc
    (filter (fun p => N.eqb (Player.room_id p) roomId) (Db.players db)).

(** [setLeaderboard(playersData.slice(0, 10))] *)
Definition leaderboard (db : Db.t) (roomId : uuid) : list Player.t :=
  firstn 10 (playersData db roomId).

(** [setTotalPlayers(playersData.length)] *)
Definition totalPlayers (db : Db.t) (roomId : uuid) : nat :=
  List.length (playersData db roomId).

(** [updateConnectionStatus(connected)] as the visibilitychange and
    beforeunload listeners call it, on the mounted client. *)
Definition updateConnectionStatus (c : PlayClient.state) (db : Db.t)
           (connected : bool) : Db.t :=
  PlayClient.updateConnectionStatus c (PlayClient.playerRoomIdRef c) db connected.

End PlayEvents.

(** ** HostClient: the question file *)

Module HostQuestions.

(** A parsed JSON document.  Numbers are kept as an abstract type [num]:
    the code only asks whether a number is truthy and whether it is 0. *)
Section Json.

Variable num : Type.
Variable num_truthy : num -> bool.
Variable num_is_zero : num -> bool.

Set Warnings "-register-all".

Inductive json :=
| JNull
| JBool (b : bool)
| JNumber (n : num)
| JString (s : jsstring)
| JArray (l : list json)
| JObject (fields : list (jsstring * json)).

(** What reading a property gives: a TypeError, undefined, or a value. *)
Inductive read := TypeError | Undefined | Value (v : json).

(** Own property [k] of a parsed object: the last field named [k]. *)
Definition field (k : jsstring) (fields : list (jsstring * json)) : read :=
  match find (fun kv => jsstring_eqb (fst kv) k) (rev fields) with
  | Some kv => Value (snd kv)
  | None => Undefined
  end.

(** [v.k] for [k] one of "questions", "text", "answer", which no
    prototype defines. *)
Definition get (v : json) (k : jsstring) : read :=
  match v with
  | JNull => TypeError
  | JObject fields => field k fields
  | _ => Undefined
  end.

Definition isArray (v : json) : bool :=
  match v with JArray _ => true | _ => false end.

Definition truthy_json (v : json) : bool :=
  match v with
  | JNull => false
  | JBool b => b
  | JNumber n => num_truthy n
  | JString s => truthy s
  | JArray _ | JObject _ => true
  end.

Definition truthy_read (r : read) : bool :=
  match r with Value v => truthy_json v | _ => false end.

Definition isString (r : read) : bool :=
  match r with Value (JString _) => true | _ => false end.

(** The filter callback:
    [q.text && q.answer && typeof q.text === "string" && typeof q.answer === "string"];
    [None] when evaluating it throws. *)
Definition validQuestion (q : json) : option bool :=
  match get q (js "text"), get q (js "answer") with
  | TypeError, _ | _, TypeError => None
  | t, a => Some (truthy_read t && truthy_read a && isString t && isString a)
  end.

(** [json.filter(callback)]: [None] when the callback throws on an
    element. *)
Fixpoint filterValid (l : list json) : option (list json) :=
  match l with
  | [] => Some []
  | q :: rest =>
      match validQuestion q, filterValid rest with
      | Some keep, Some kept => Some (if keep then q :: kept else kept)
      | _, _ => None
      end
  end.

(** A kept element read as the [{ text, answer }] the state is typed
    with. *)
Definition asQA (q : json) : HostClient.QA :=
  HostClient.mkQA
    (match get q (js "text") with Value (JString s) => s | _ => [] end)
    (match get q (js "answer") with Value (JString s) => s | _ => [] end).

(** [json.length], as compared with [validQuestions.length]: [Some n]
    when it is the number n. *)
Definition lengthIs (v : json) (n : nat) : bool :=
  match v with
  | JArray l => Nat.eqb (List.length l) n
  | JString s => Nat.eqb (List.length s) n
  | JObject fields =>
      match field (js "length") fields with
      | Value (JNumber x) => match n with O => num_is_zero x | _ => false end
      | _ => false
      end
  | _ => false
  end.

(** What [loadQuestions] leaves in [jsonQuestions]: [Loaded qs warned]
    when the try block ends ([warned]: the "some questions were ignored"
    message was shown), [LoadError] when the catch block ran, which
    empties the list. *)
Inductive loaded :=
| Loaded (jsonQuestions : list HostClient.QA) (warned : bool)
| LoadError.

(** [loadQuestions]; [body] is the parsed reply of the fetch, [None] when
    the fetch fails, the reply is not ok or is not JSON. *)
Definition loadQuestions (body : option json) : loaded :=
  match body with
  | None => LoadError
  | Some json0 =>
      (* if (!Array.isArray(json) && Array.isArray(json.questions)) *)
      let unwrapped :=
        if isArray json0 then Some json0
        else match get json0 (js "questions") with
             | TypeError => None
             | Value (JArray l) => Some (JArray l)
             | _ => Some json0
             end in
      match unwrapped with
      | None => LoadError
      | Some json1 =>
          match json1 with
          | JArray l =>
              match filterValid l with
              | None => LoadError
              | Some valid =>
                  Loaded (map asQA valid)
                         (negb (Nat.eqb (List.length valid) (List.length l)))
              end
          | _ => Loaded [] (negb (lengthIs json1 0))
          end
      end
  end.

End Json.

(** The Select of the host page: [onValueChange(val)]. *)
Definition selectQuestion (jsonQuestions : list HostClient.QA) (val : jsstring)
  : option HostClient.QA :=
  match find (fun q => jsstring_eqb (HostClient.text q) val) jsonQuestions with
  | Some selected =>
      Some (HostClient.mkQA (HostClient.text selected) (HostClient.answer selected))
  | None => None
  end.

End HostQuestions.

(** ** Vocabulary of the further properties *)

(** The digits of [toString(36)]: 0-9 and a-z. *)
Definition base36 (c : N) : bool :=
  ((48 <=? c) && (c <=? 57) || (97 <=? c) && (c <=? 122))%N.

(** The characters of a room code: 0-9 and A-Z. *)
Definition codeChar (c : N) : bool :=
  ((48 <=? c) && (c <=? 57) || (65 <=? c) && (c <=? 90))%N.

(** Code units of the ASCII range, where [toUpperCase] above is the
    whole of the JavaScript function. *)
Definition ascii_only (s : jsstring) : Prop := Forall (fun c => (c < 128)%N) s.

(** PRIMARY KEY, UNIQUE and REFERENCES of the migration, as properties of
    the four tables. *)
Record wf (db : Db.t) : Prop := mk_wf
  { wf_room_ids : NoDup (map Room.id (Db.rooms db));
    wf_codes : codes_unique db;
    wf_player_ids : NoDup (map Player.id (Db.players db));
    wf_question_ids : NoDup (map Question.id (Db.questions db));
    wf_answer_ids : NoDup (map Answer.id (Db.answers db));
    wf_player_room :
      forall p, In p (Db.players db) -> has_room db (Player.room_id p) = true;
    wf_question_room :
      forall q, In q (Db.questions db) -> has_room db (Question.room_id q) = true;
    wf_answer_player :
      forall a, In a (Db.answers db) -> has_player db (Answer.player_id a) = true;
    wf_answer_question :
      forall a, In a (Db.answers db) -> has_question db (Answer.question_id a) = true }.

(** One handler run by some client, whatever the state of that client. *)
Inductive step (db : Db.t) : Db.t -> Prop :=
| step_createRoom rnd host i :
    step db (fst (HomePage.createRoom db rnd host i))
| step_joinRoom s i :
    step db (fst (HomePage.joinRoom s db i))
| step_sendQuestion h qd i :
    step db (snd (fst (HostClient.sendQuestion h db qd i)))
| step_endGame h confirmed :
    step db (snd (fst (HostClient.endGame h db confirmed)))
| step_markAnswerCorrect h a :
    step db (snd (fst (HostClient.markAnswerCorrect h db a)))
| step_updatePlayerScore h playerId amount :
    step db (snd (fst (HostClient.updatePlayerScore h db playerId amount)))
| step_loadPlayerData c now :
    step db (snd (fst (PlayClient.loadPlayerData c db now)))
| step_updateConnectionStatus c connected :
    step db (PlayEvents.updateConnectionStatus c db connected)
| step_submitAnswer c now i :
    step db (snd (fst (PlayClient.submitAnswer c db now i))).

(** The databases the clients can produce from the empty one. *)
Inductive reachable : Db.t -> Prop :=
| reachable_empty : reachable emptyDb
| reachable_step db db' : reachable db -> step db db' -> reachable db'.

Arguments HostQuestions.JNull {num}.
Arguments HostQuestions.JBool {num} b.
Arguments HostQuestions.JNumber {num} n.
Arguments HostQuestions.JString {num} s.
Arguments HostQuestions.JArray {num} l.
Arguments HostQuestions.JObject {num} fields.
Arguments HostQuestions.TypeError {num}.
Arguments HostQuestions.Undefined {num}.
Arguments HostQuestions.Value {num} v.

(** An element of the question file that is an object whose text and
    answer are both non-empty strings. *)
Definition goodQuestion {num : Type} (q : HostQuestions.json num) : bool :=
  match q with
  | HostQuestions.JObject fields =>
      match HostQuestions.field (js "text") fields,
            HostQuestions.field (js "answer") fields with
      | HostQuestions.Value (HostQuestions.JString t),
        HostQuestions.Value (HostQuestions.JString a) => truthy t && truthy a
      | _, _ => false
      end
  | _ => false
  end.

Definition isNull {num : Type} (q : HostQuestions.json num) : bool :=
  match q with HostQuestions.JNull => true | _ => false end.

(** Highest score first. *)
Definition by_score_desc (x y : Player.t) : Prop :=
  (Player.score y <= Player.score x)%Z.

(** * Properties *)

(** ** Queries *)

Lemma eqb_true (b : bool) : Bool.eqb b true = b.
Proof. destruct b; reflexivity. Qed.

Lemma jsstring_eqb_eq (s t : jsstring) : jsstring_eqb s t = true <-> s = t.
Proof.
  unfold jsstring_eqb. destruct (list_eq_dec N.eq_dec s t); split; congruence.
Qed.

Lemma In_update {A} (sel : A -> bool) (set : A -> A) (l : list A) (y : A) :
  In y (update sel set l) ->
  exists x, In x l /\ y = (if sel x then set x else x).
Proof.
  unfold update. rewrite in_map_iff. intros [x [E H]]. exists x. auto.
Qed.

Lemma In_delete {A} (sel : A -> bool) (l : list A) (y : A) :
  In y (delete sel l) <-> In y l /\ sel y = false.
Proof.
  unfold delete. rewrite filter_In, negb_true_iff. tauto.
Qed.

Lemma filter_nil_iff {A} (f : A -> bool) (l : list A) :
  filter f l = [] <-> forall x, In x l -> f x = false.
Proof.
  induction l as [|a l IH]; simpl.
  - split; [intros _ x [] | reflexivity].
  - destruct (f a) eqn:E; split.
    + discriminate.
    + intros H. specialize (H a (or_introl eq_refl)). congruence.
    + intros H x [<-|Hx]; [assumption | now apply IH].
    + intros H. apply IH. intros x Hx. apply H. now right.
Qed.

Lemma existsb_false_iff {A} (f : A -> bool) (l : list A) :
  existsb f l = false <-> forall x, In x l -> f x = false.
Proof.
  induction l as [|a l IH]; simpl.
  - split; [intros _ x [] | reflexivity].
  - rewrite orb_false_iff, IH. split.
    + intros [Ha H] x [<-|Hx]; auto.
    + intros H. split; [apply H; now left | intros x Hx; apply H; now right].
Qed.

(** ** trim *)

Lemma trimStart_split (s : jsstring) :
  exists pre, s = pre ++ trimStart s /\ forallb isWhiteSpace pre = true.
Proof.
  induction s as [|c s [pre [E F]]]; simpl.
  - exists []. auto.
  - destruct (isWhiteSpace c) eqn:W.
    + exists (c :: pre). simpl. rewrite W, F. split; [congruence|reflexivity].
    + exists []. auto.
Qed.

Lemma trimStart_head (s t : jsstring) (c : N) :
  trimStart s = c :: t -> isWhiteSpace c = false.
Proof.
  induction s as [|d s IH]; simpl; [discriminate|].
  destruct (isWhiteSpace d) eqn:W; [assumption|].
  intros E; inversion E; subst; assumption.
Qed.

Lemma trimStart_snoc (s : jsstring) (c : N) :
  isWhiteSpace c = false -> trimStart (s ++ [c]) = trimStart s ++ [c].
Proof.
  intros W. induction s as [|d s IH]; simpl.
  - now rewrite W.
  - destruct (isWhiteSpace d); [assumption|reflexivity].
Qed.

Lemma trimStart_blank (s : jsstring) :
  trimStart s = [] <-> forallb isWhiteSpace s = true.
Proof.
  induction s as [|c s IH]; simpl; [tauto|].
  destruct (isWhiteSpace c); simpl; [assumption|].
  split; discriminate.
Qed.

Lemma trimEnd_cons (s : jsstring) (c : N) :
  isWhiteSpace c = false -> trimEnd (c :: s) = c :: trimEnd s.
Proof.
  intros W. unfold trimEnd. simpl. rewrite trimStart_snoc by assumption.
  rewrite rev_app_distr. reflexivity.
Qed.

Lemma trimEnd_split (s : jsstring) :
  exists post, s = trimEnd s ++ post /\ forallb isWhiteSpace post = true.
Proof.
  unfold trimEnd. destruct (trimStart_split (rev s)) as [pre [E F]].
  exists (rev pre). split.
  - rewrite <- rev_app_distr, <- E. symmetry. apply rev_involutive.
  - rewrite forallb_forall in *. intros x Hx. apply F. now apply in_rev.
Qed.

Lemma trimEnd_last (s t : jsstring) (c : N) :
  trimEnd s = t ++ [c] -> isWhiteSpace c = false.
Proof.
  unfold trimEnd. intros E. apply (f_equal (@rev N)) in E.
  rewrite rev_involutive, rev_app_distr in E. simpl in E.
  exact (trimStart_head _ E).
Qed.

(** [trim s] is [s] without a whitespace prefix and a whitespace suffix,
    and neither begins nor ends with whitespace. *)
Lemma trim_spec (s : jsstring) :
  exists pre post,
    s = pre ++ trim s ++ post /\
    forallb isWhiteSpace pre = true /\ forallb isWhiteSpace post = true /\
    (forall c t, trim s = c :: t -> isWhiteSpace c = false) /\
    (forall t c, trim s = t ++ [c] -> isWhiteSpace c = false).
Proof.
  unfold trim.
  destruct (trimStart_split s) as [pre [E F]].
  destruct (trimEnd_split (trimStart s)) as [post [E' F']].
  exists pre, post. split; [congruence|]. split; [assumption|].
  split; [assumption|]. split.
  - intros c t H. destruct (trimStart s) as [|d u] eqn:T.
    + discriminate.
    + pose proof (trimStart_head _ T) as W.
      rewrite trimEnd_cons in H by assumption. congruence.
  - intros t c H. exact (@trimEnd_last _ _ _ H).
Qed.

(** A string is empty after trimming exactly when all of it is
    whitespace. *)
Lemma blank_iff (s : jsstring) : blank s <-> forallb isWhiteSpace s = true.
Proof.
  unfold blank, trim. split.
  - intros H. destruct (trimStart_split s) as [pre [E F]].
    destruct (trimEnd_split (trimStart s)) as [post [E' F']].
    rewrite H in E'. simpl in E'. rewrite E, E', forallb_app, F, F'. reflexivity.
  - intros H. apply trimStart_blank in H. rewrite H. reflexivity.
Qed.

(** ** sendQuestion *)

Lemma truthy_false_iff (s : jsstring) : truthy s = false <-> s = [].
Proof. destruct s; simpl; split; congruence. Qed.

Lemma active_after_disable (h : HostClient.state) (db : Db.t) (r : uuid) :
  activeQuestions (HostClient.disablePrevious h db) r =
  if N.eqb r (HostClient.roomId h) then [] else activeQuestions db r.
Proof.
  unfold activeQuestions, HostClient.disablePrevious, update; simpl.
  induction (Db.questions db) as [|q l IH]; simpl.
  - now destruct (N.eqb r (HostClient.roomId h)).
  - rewrite IH; clear IH. rewrite eqb_true. unfold active_in.
    destruct q as [qi qr qt qc qa]; simpl.
    destruct (N.eqb_spec qr (HostClient.roomId h)) as [->|Hq];
      destruct (N.eqb_spec r (HostClient.roomId h)) as [->|Hr];
      destruct qa; simpl;
      rewrite ?N.eqb_refl, ?andb_false_r; simpl; try reflexivity.
    + destruct (N.eqb_spec (HostClient.roomId h) r); [congruence|reflexivity].
    + destruct (N.eqb_spec qr (HostClient.roomId h)); [congruence|reflexivity].
Qed.

Lemma insert_question_inr (db db' : Db.t) (q : Question.t) :
  insert_question db q = inr db' ->
  has_question db (Question.id q) = false /\
  has_room db (Question.room_id q) = true /\
  db' = Db.mk (Db.rooms db) (Db.players db) (Db.questions db ++ [q]) (Db.answers db).
Proof.
  unfold insert_question.
  destruct (has_question db (Question.id q)); [discriminate|].
  destruct (has_room db (Question.room_id q)); simpl; [|discriminate].
  intros H; inversion H; auto.
Qed.

Lemma insert_question_inl (db : Db.t) (q : Question.t) (e : db_error) :
  insert_question db q = inl e ->
  has_question db (Question.id q) = true \/ has_room db (Question.room_id q) = false.
Proof.
  unfold insert_question.
  destruct (has_question db (Question.id q)); [auto|].
  destruct (has_room db (Question.room_id q)); simpl; [discriminate|auto].
Qed.

Lemma sendQuestion_cases (h : HostClient.state) (db : Db.t)
      (qd : option HostClient.QA) (i : uuid) :
  let r := HostClient.sendQuestion h db qd i in
  sendQuestion_result h db qd i (fst (fst r)) (snd (fst r)) (snd r).
Proof.
  unfold HostClient.sendQuestion.
  destruct (HostClient.questionToSend h qd) as [q|] eqn:Eq; simpl.
  2: { apply SQ_refused. intros q H; congruence. }
  destruct (truthy (trim (HostClient.text q))) eqn:Et; simpl.
  2: { apply SQ_refused. intros q' H. assert (q' = q) by congruence. subst q'.
       left. now apply truthy_false_iff. }
  destruct (truthy (trim (HostClient.answer q))) eqn:Ea; simpl.
  2: { apply SQ_refused. intros q' H. assert (q' = q) by congruence. subst q'.
       right. now apply truthy_false_iff. }
  assert (Ht : ~ blank (HostClient.text q)).
  { intros B. apply truthy_false_iff in B. congruence. }
  assert (Ha : ~ blank (HostClient.answer q)).
  { intros B. apply truthy_false_iff in B. congruence. }
  assert (Hsame : has_question (HostClient.disablePrevious h db) i = has_question db i).
  { unfold has_question, HostClient.disablePrevious, update; simpl.
    induction (Db.questions db) as [|x l IH]; simpl; [reflexivity|].
    rewrite IH. destruct (_ && _); reflexivity. }
  destruct (insert_question (HostClient.disablePrevious h db)
                            (HostClient.newQuestion h q i)) as [e|db2] eqn:Ei; simpl.
  - apply SQ_caught with (q := q); auto.
    apply insert_question_inl in Ei. simpl in Ei. rewrite Hsame in Ei. exact Ei.
  - apply insert_question_inr in Ei. destruct Ei as [Hq [Hr ->]].
    change (has_question (HostClient.disablePrevious h db) i = false) in Hq.
    rewrite Hsame in Hq.
    exact (@SQ_completed h db qd i q (HostClient.mk _ _ _ _ _ _ _ _)
                         Eq Ht Ha Hq Hr eq_refl eq_refl eq_refl).
Qed.


(** The active questions of every room after one call. *)
Lemma sendQuestion_active (h : HostClient.state) (db : Db.t)
      (qd : option HostClient.QA) (i : uuid) (r : uuid) :
  let res := HostClient.sendQuestion h db qd i in
  activeQuestions (snd (fst res)) r =
  if N.eqb r (HostClient.roomId h) then
    match snd res, HostClient.questionToSend h qd with
    | Completed, Some q => [HostClient.newQuestion h q i]
    | Caught _, _ => []
    | _, _ => activeQuestions db r
    end
  else activeQuestions db r.
Proof.
  intros res. subst res.
  destruct (sendQuestion_cases h db qd i) as [Hb | q Hq Ht Ha Hf | q h' Hq Ht Ha Hi Hr Hh _ _].
  - destruct (N.eqb r (HostClient.roomId h)); reflexivity.
  - apply active_after_disable.
  - rewrite Hq. pose proof (active_after_disable h db r) as E.
    unfold activeQuestions in *; cbn [Db.questions].
    rewrite filter_app, E. simpl. unfold active_in; simpl.
    rewrite (N.eqb_sym (HostClient.roomId h) r).
    destruct (N.eqb r (HostClient.roomId h)); simpl; [reflexivity|apply app_nil_r].
Qed.

Lemma sendQuestion_keeps_invariant (h : HostClient.state) (db : Db.t)
      (qd : option HostClient.QA) (i : uuid) :
  at_most_one_active db ->
  at_most_one_active (snd (fst (HostClient.sendQuestion h db qd i))).
Proof.
  intros H r. rewrite sendQuestion_active.
  destruct (N.eqb r (HostClient.roomId h)); [|apply H].
  destruct (snd (HostClient.sendQuestion h db qd i)); try apply H.
  - destruct (HostClient.questionToSend h qd); [simpl; lia | apply H].
  - simpl; lia.
Qed.










(** C7. When the question to send has a text or an answer that is empty
    after trimming, sendQuestion tells the host that a question and an
    answer are required and returns with the database (and so the
    questions table) exactly as it was.  When both are non-empty after
    trimming, the only row the call can add to the questions table is the
    one holding the trimmed text and the trimmed answer, and it does add
    it whenever the database accepts the insert (fresh id, existing
    room). *)
Theorem sendQuestion_validation (h : HostClient.state) (db : Db.t)
        (qd : option HostClient.QA) (i : uuid) (q : HostClient.QA) :
  HostClient.questionToSend h qd = Some q ->
  (blank (HostClient.text q) \/ blank (HostClient.answer q) ->
   HostClient.sendQuestion h db qd i = (h, db, Refused)) /\
  (~ blank (HostClient.text q) -> ~ blank (HostClient.answer q) ->
   let res := HostClient.sendQuestion h db qd i in
   let stored :=
     Question.mk i (HostClient.roomId h) (trim (HostClient.text q))
                 (Some (trim (HostClient.answer q))) true in
   (snd res = Completed /\
    Db.questions (snd (fst res)) =
      Db.questions (HostClient.disablePrevious h db) ++ [stored])
   \/
   (snd res = Caught FailedToInsertQuestion /\
    Db.questions (snd (fst res)) = Db.questions (HostClient.disablePrevious h db))) /\
  (~ blank (HostClient.text q) -> ~ blank (HostClient.answer q) ->
   has_question db i = false -> has_room db (HostClient.roomId h) = true ->
   snd (HostClient.sendQuestion h db qd i) = Completed).
Proof.
  intros Hq.
  pose proof (sendQuestion_cases h db qd i) as C. simpl in C.
  split; [|split].
  - intros B.
    unfold HostClient.sendQuestion. rewrite Hq.
    destruct B as [B|B]; apply truthy_false_iff in B; rewrite B; simpl.
    + reflexivity.
    + rewrite orb_true_r. reflexivity.
  - intros Ht Ha res stored. subst res stored.
    destruct (HostClient.sendQuestion h db qd i) as [[h' db'] o]; simpl in *.
    inversion C as [Hb | q' Hq' _ _ Hf | q' h0 Hq' _ _ Hi Hr _ _ _]; subst.
    + destruct (Hb q Hq); contradiction.
    + right. split; reflexivity.
    + left. assert (q' = q) by congruence. subst q'. split; reflexivity.
  - intros Ht Ha Hi Hr.
    destruct (HostClient.sendQuestion h db qd i) as [[h' db'] o]; simpl in *.
    inversion C as [Hb | q' Hq' _ _ Hf | q' h0 Hq' _ _ _ _ _ _ _]; subst.
    + destruct (Hb q Hq); contradiction.
    + destruct Hf; congruence.
    + reflexivity.
Qed.

Lemma sendQuestion_validation_witness :
  HostClient.sendQuestion Demo.host1 Demo.db_q1
    (Some (HostClient.mkQA (js "Capital?") (js "  "))) 21%N
  = (Demo.host1, Demo.db_q1, Refused)
  /\
  snd (HostClient.sendQuestion Demo.host0 Demo.db_players
         (Some (HostClient.mkQA (js "2+2? ") (js " 4"))) 20%N)
  = Completed.
Proof.
  split.
  - refine (proj1 (@sendQuestion_validation Demo.host1 Demo.db_q1
                     (Some (HostClient.mkQA (js "Capital?") (js "  "))) 21%N
                     (HostClient.mkQA (js "Capital?") (js "  ")) eq_refl) _).
    right. reflexivity.
  - refine (proj2 (proj2 (@sendQuestion_validation Demo.host0 Demo.db_players
                     (Some (HostClient.mkQA (js "2+2? ") (js " 4"))) 20%N
                     (HostClient.mkQA (js "2+2? ") (js " 4")) eq_refl))
                  _ _ eq_refl eq_refl).
    + intros B. vm_compute in B. discriminate.
    + intros B. vm_compute in B. discriminate.
Defined.

(** C9. Whatever sendQuestion does, it changes no stored answer: every
    answer stored after the call is an answer that was stored before it,
    with the same is_correct flag and the same other fields; and every
    answer stored before the call is either still stored, as it was, or
    was deleted with the answers of the host's room by a call that
    completed. *)
Theorem sendQuestion_keeps_is_correct (h : HostClient.state) (db : Db.t)
        (qd : option HostClient.QA) (i : uuid) :
  let res := HostClient.sendQuestion h db qd i in
  (forall a', In a' (Db.answers (snd (fst res))) -> In a' (Db.answers db)) /\
  (forall a, In a (Db.answers db) ->
             In a (Db.answers (snd (fst res))) \/
             (snd res = Completed /\ Answer.room_id a = Some (HostClient.roomId h))).
Proof.
  intros res. subst res.
  destruct (sendQuestion_cases h db qd i); cbn [Db.answers].
  - split; auto.
  - split; auto.
  - split.
    + intros a' Ha. apply In_delete in Ha. tauto.
    + intros a Ha.
      destruct (opt_uuid_eqb (Answer.room_id a) (HostClient.roomId h)) eqn:E.
      * right. split; [reflexivity|].
        unfold opt_uuid_eqb in E. destruct (Answer.room_id a); [|discriminate].
        apply N.eqb_eq in E. congruence.
      * left. apply In_delete. auto.
Qed.

Lemma sendQuestion_keeps_is_correct_witness :
  let a := Answer.mk 30%N 10%N 20%N (Some 1%N) (js "4") 1200%Z false None in
  let res := HostClient.sendQuestion Demo.host2 Demo.db_ab None 21%N in
  In a (Db.answers Demo.db_ab) /\
  (In a (Db.answers (snd (fst res))) \/
   (snd res = Completed /\ Answer.room_id a = Some (HostClient.roomId Demo.host2))).
Proof.
  assert (I : In (Answer.mk 30%N 10%N 20%N (Some 1%N) (js "4") 1200%Z false None)
                 (Db.answers Demo.db_ab)) by (simpl; left; reflexivity).
  split; [exact I|].
  exact (proj2 (sendQuestion_keeps_is_correct Demo.host2 Demo.db_ab None 21%N) _ I).
Defined.

(** ** updatePlayerScore *)

Lemma updatePlayerScore_players (h : HostClient.state) (db : Db.t)
      (playerId : uuid) (amount : Z) :
  let res := HostClient.updatePlayerScore h db playerId amount in
  match find (fun p => N.eqb (Player.id p) playerId) (HostClient.players h) with
  | None => res = (h, db, Returned)
  | Some player =>
      snd res = Completed /\
      Db.players (snd (fst res)) =
        update (fun p => N.eqb (Player.id p) playerId)
               (Player.with_score (Z.max 0 (Player.score player + amount)))
               (Db.players db)
  end.
Proof.
  unfold HostClient.updatePlayerScore.
  destruct (find _ (HostClient.players h)); simpl; auto.
Qed.

Lemma updatePlayerScore_keeps_nonneg (h : HostClient.state) (db : Db.t)
      (playerId : uuid) (amount : Z) :
  scores_nonneg db ->
  scores_nonneg (snd (fst (HostClient.updatePlayerScore h db playerId amount))).
Proof.
  intros H. pose proof (updatePlayerScore_players h db playerId amount) as U.
  simpl in U. destruct (find _ (HostClient.players h)) as [player|].
  - destruct U as [_ U]. intros p Hp. rewrite U in Hp.
    apply In_update in Hp. destruct Hp as [x [Hx ->]].
    destruct (N.eqb (Player.id x) playerId); simpl; [lia | now apply H].
  - rewrite U. exact H.
Qed.

(** C4. A call of updatePlayerScore that finds the player in the host's
    list writes max(0, score + amount) as the score of every stored row
    of that player, for every integer amount, so the score it writes is
    never negative; and along every sequence of calls, started in a
    database without negative scores, no stored score is negative after
    any call. *)
Theorem updatePlayerScore_floor :
  (forall (h : HostClient.state) (db : Db.t) (playerId : uuid) (amount : Z)
          (player : Player.t),
      find (fun p => N.eqb (Player.id p) playerId) (HostClient.players h) = Some player ->
      let res := HostClient.updatePlayerScore h db playerId amount in
      snd res = Completed /\
      forall p, In p (Db.players (snd (fst res))) -> Player.id p = playerId ->
                Player.score p = Z.max 0 (Player.score player + amount)
                /\ (0 <= Player.score p)%Z) /\
  (forall (calls : list (uuid * Z)) (h : HostClient.state) (db : Db.t),
      scores_nonneg db ->
      Forall (fun res => scores_nonneg (snd (fst res)))
             (updatePlayerScores h db calls)).
Proof.
  split.
  - intros h db playerId amount player Hf res. subst res.
    pose proof (updatePlayerScore_players h db playerId amount) as U.
    simpl in U. rewrite Hf in U. destruct U as [Ho U].
    split; [assumption|]. intros p Hp Hid. rewrite U in Hp.
    apply In_update in Hp. destruct Hp as [x [Hx E]].
    destruct (N.eqb_spec (Player.id x) playerId) as [Ex|Ex].
    + subst p. simpl. split; [reflexivity | lia].
    + subst p. contradiction.
  - induction calls as [|[playerId amount] rest IH]; intros h db Hn; simpl.
    + constructor.
    + constructor.
      * now apply updatePlayerScore_keeps_nonneg.
      * apply IH. now apply updatePlayerScore_keeps_nonneg.
Qed.

Lemma updatePlayerScore_floor_witness :
  storedScores
    (snd (fst (HostClient.updatePlayerScore Demo.host2 Demo.db_ab 10%N (-5)%Z))) 10%N
  = [0%Z]
  /\ Forall (fun res => scores_nonneg (snd (fst res)))
            (updatePlayerScores Demo.host2 Demo.db_ab
               [(10%N, (-5)%Z); (11%N, 3%Z); (11%N, (-7)%Z)]).
Proof.
  split; [reflexivity|].
  apply (proj2 updatePlayerScore_floor).
  intros p Hp. simpl in Hp.
  destruct Hp as [<-|[<-|[]]]; simpl; lia.
Defined.

(** ** markAnswerCorrect *)

(** An answer the host's copy shows as correct is left alone. *)
Lemma markAnswerCorrect_already_correct (h : HostClient.state) (db : Db.t)
      (a : Answer.t) :
  Answer.is_correct a = true ->
  HostClient.markAnswerCorrect h db a = (h, db, Returned).
Proof.
  intros H. unfold HostClient.markAnswerCorrect. rewrite H. reflexivity.
Qed.

(** Otherwise the stored answer is flagged and the player's stored score
    becomes one more than the score in the host's copy of the answer. *)
Lemma markAnswerCorrect_writes (h : HostClient.state) (db : Db.t) (a : Answer.t) :
  Answer.is_correct a = false ->
  let res := HostClient.markAnswerCorrect h db a in
  let copy := match Answer.player a with Some p => Player.score p | None => 0%Z end in
  snd res = Completed /\
  Db.answers (snd (fst res)) =
    update (fun x => N.eqb (Answer.id x) (Answer.id a))
           (Answer.with_is_correct true) (Db.answers db) /\
  Db.players (snd (fst res)) =
    update (fun p => N.eqb (Player.id p) (Answer.player_id a))
           (Player.with_score (copy + 1)) (Db.players db).
Proof.
  intros H. unfold HostClient.markAnswerCorrect. rewrite H. simpl. auto.
Qed.

Lemma storedScores_update (l : list Player.t) (i : uuid) (v : Z) :
  map Player.score
      (filter (fun p => N.eqb (Player.id p) i)
              (update (fun p => N.eqb (Player.id p) i) (Player.with_score v) l))
  = map (fun _ => v) (filter (fun p => N.eqb (Player.id p) i) l).
Proof.
  unfold update. induction l as [|x l IH]; simpl; [reflexivity|].
  destruct (N.eqb (Player.id x) i) eqn:Ex; simpl; rewrite Ex; simpl;
    rewrite IH; reflexivity.
Qed.

(** When the host's copy agrees with the stored score the call adds
    exactly one point. *)
Lemma markAnswerCorrect_fresh_copy (h : HostClient.state) (db : Db.t)
      (a : Answer.t) (p : Player.t) (s : Z) :
  Answer.is_correct a = false ->
  Answer.player a = Some p ->
  storedScores db (Answer.player_id a) = [s] ->
  Player.score p = s ->
  storedScores (snd (fst (HostClient.markAnswerCorrect h db a))) (Answer.player_id a)
  = [(s + 1)%Z].
Proof.
  intros Hc Hp Hs Hps.
  destruct (markAnswerCorrect_writes h db a Hc) as [_ [_ E]].
  unfold storedScores in *. rewrite E, Hp, Hps, storedScores_update.
  destruct (filter _ (Db.players db)) as [|y [|z l]]; simpl in *;
    try discriminate. reflexivity.
Qed.

(** C3. The host has the answers on screen, gives Alice a point with the
    +1 button (stored score 0 -> 1) and then marks Alice's answer
    correct.  The answer on screen still carries Alice's score as it was
    when the answers were loaded (0), the players subscription reloads
    the players only; markAnswerCorrect completes, flags the stored
    answer, and writes 0 + 1 = 1 as her score: the stored score is 1
    before and after the call. *)
Theorem markAnswerCorrect_stale_copy :
  exists a,
    Demo.alice_answer = Some a /\
    Answer.is_correct a = false /\
    option_map Player.score (Answer.player a) = Some 0%Z /\
    storedScores Demo.db_adj 10%N = [1%Z] /\
    snd Demo.marked = Completed /\
    map Answer.is_correct
        (filter (fun x => N.eqb (Answer.id x) 30%N) (Db.answers Demo.db_marked)) = [true] /\
    storedScores Demo.db_marked 10%N = [1%Z].
Proof.
  eexists. split; [reflexivity|]. repeat split.
Qed.

(** ** submitAnswer *)

Lemma insert_answer_inr (db db' : Db.t) (a : Answer.t) :
  insert_answer db a = inr db' ->
  db' = Db.mk (Db.rooms db) (Db.players db) (Db.questions db) (Db.answers db ++ [a]).
Proof.
  unfold insert_answer.
  destruct (has_answer db (Answer.id a)); [discriminate|].
  destruct (has_player db (Answer.player_id a)); simpl; [|discriminate].
  destruct (has_question db (Answer.question_id a)); simpl; [|discriminate].
  intros H; inversion H; reflexivity.
Qed.

(** What one call does, branch by branch. *)
Lemma submitAnswer_cases (c : PlayClient.state) (db : Db.t) (now : Z) (i : uuid) :
  let res := PlayClient.submitAnswer c db now i in
  (res = (c, db, Returned) /\
   (PlayClient.currentQuestion c = None \/ blank (PlayClient.answer c) \/
    PlayClient.hasAnswered c = true \/ PlayClient.isSubmitting c = true))
  \/
  (exists e, snd res = Caught (DbError e) /\ snd (fst res) = db /\
             PlayClient.hasAnswered (fst (fst res)) = PlayClient.hasAnswered c)
  \/
  (exists q,
      PlayClient.currentQuestion c = Some q /\
      ~ blank (PlayClient.answer c) /\
      PlayClient.hasAnswered c = false /\
      snd res = Completed /\
      PlayClient.hasAnswered (fst (fst res)) = true /\
      PlayClient.currentQuestion (fst (fst res)) = Some q /\
      snd (fst res) =
        Db.mk (Db.rooms db) (Db.players db) (Db.questions db)
              (Db.answers db ++
                 [Answer.mk i (PlayClient.playerId c) (Question.id q)
                            (PlayClient.playerRoomIdRef c)
                            (trim (PlayClient.answer c))
                            (now - PlayClient.questionStartTime c) false None])).
Proof.
  unfold PlayClient.submitAnswer.
  destruct (PlayClient.currentQuestion c) as [q|] eqn:Eq; simpl; [|left; auto].
  destruct (truthy (trim (PlayClient.answer c))) eqn:Et; simpl.
  2: { left. split; [reflexivity|]. right; left. now apply truthy_false_iff. }
  destruct (PlayClient.hasAnswered c) eqn:Eh; simpl; [left; auto|].
  destruct (PlayClient.isSubmitting c) eqn:Es; simpl; [left; auto 6|].
  destruct (insert_answer db _) as [e|db'] eqn:Ei; simpl.
  - right; left. exists e. auto.
  - right; right. exists q. apply insert_answer_inr in Ei. subst db'.
    repeat split; auto.
    intros B. apply truthy_false_iff in B. congruence.
Qed.

Lemma loadPlayerData_ref (c0 c1 : PlayClient.state) (db0 db1 : Db.t) (now0 : Z) :
  PlayClient.loadPlayerData c0 db0 now0 = (c1, db1, Completed) ->
  exists p,
    single (filter (fun p => N.eqb (Player.id p) (PlayClient.playerId c0))
                   (Db.players db0)) = Some p /\
    PlayClient.playerId c1 = PlayClient.playerId c0 /\
    PlayClient.playerRoomIdRef c1 = Some (Player.room_id p).
Proof.
  unfold PlayClient.loadPlayerData.
  destruct (single (filter _ (Db.players db0))) as [p|]; [|discriminate].
  intros H. exists p. split; [reflexivity|].
  destruct (single (filter _ (Db.questions _))) as [q|].
  - destruct (single (filter _ (Db.answers _))); inversion H; subst; simpl; auto.
  - inversion H; subst; simpl; auto.
Qed.

(** C10. If the typed answer is empty after trimming, submitAnswer
    returns with the client and the database exactly as they were.
    Whenever a call changes the database, it has added exactly one row
    to answers: its text is the typed answer trimmed, its is_correct is
    false and its room_id is the client's playerRoomIdRef; and for a
    client that has loaded its player, that is the room_id of the
    player's stored row. *)
Theorem submitAnswer_stores_trimmed :
  (forall (c : PlayClient.state) (db : Db.t) (now : Z) (i : uuid),
      blank (PlayClient.answer c) ->
      PlayClient.submitAnswer c db now i = (c, db, Returned)) /\
  (forall (c : PlayClient.state) (db : Db.t) (now : Z) (i : uuid),
      let res := PlayClient.submitAnswer c db now i in
      snd (fst res) = db \/
      exists a,
        Db.answers (snd (fst res)) = Db.answers db ++ [a] /\
        Db.rooms (snd (fst res)) = Db.rooms db /\
        Db.players (snd (fst res)) = Db.players db /\
        Db.questions (snd (fst res)) = Db.questions db /\
        ~ blank (PlayClient.answer c) /\
        Answer.text a = trim (PlayClient.answer c) /\
        Answer.is_correct a = false /\
        Answer.room_id a = PlayClient.playerRoomIdRef c /\
        Answer.player_id a = PlayClient.playerId c) /\
  (forall (c0 c1 : PlayClient.state) (db0 db1 db : Db.t) (now0 now : Z)
          (v : jsstring) (i : uuid),
      PlayClient.loadPlayerData c0 db0 now0 = (c1, db1, Completed) ->
      let res := PlayClient.submitAnswer (PlayClient.setAnswer c1 v) db now i in
      snd res = Completed ->
      exists p a,
        single (filter (fun p => N.eqb (Player.id p) (PlayClient.playerId c0))
                       (Db.players db0)) = Some p /\
        Db.answers (snd (fst res)) = Db.answers db ++ [a] /\
        Answer.player_id a = Player.id p /\
        Answer.room_id a = Some (Player.room_id p) /\
        Answer.text a = trim v /\
        Answer.is_correct a = false).
Proof.
  split; [|split].
  - intros c db now i B. unfold PlayClient.submitAnswer.
    apply truthy_false_iff in B. rewrite B. simpl.
    destruct (PlayClient.currentQuestion c); reflexivity.
  - intros c db now i res. subst res.
    destruct (submitAnswer_cases c db now i)
      as [[E _] | [[e [_ [E _]]] | [q [Hq [Hb [_ [_ [_ [_ E]]]]]]]]].
    + left. rewrite E. reflexivity.
    + left. exact E.
    + right. rewrite E. eexists. repeat split; try reflexivity. exact Hb.
  - intros c0 c1 db0 db1 db now0 now v i Hl res Hc. subst res.
    destruct (loadPlayerData_ref _ _ _ Hl) as [p [Hp [Hid Href]]].
    destruct (submitAnswer_cases (PlayClient.setAnswer c1 v) db now i)
      as [[E _] | [[e [E _]] | [q [Hq [Hb [_ [_ [_ [_ E]]]]]]]]].
    + rewrite E in Hc. discriminate.
    + rewrite E in Hc. discriminate.
    + exists p. eexists. split; [exact Hp|]. rewrite E. simpl.
      split; [reflexivity|]. simpl. rewrite Hid, Href.
      assert (Player.id p = PlayClient.playerId c0) as ->.
      { clear - Hp. destruct (filter _ (Db.players db0)) as [|x [|y l]] eqn:F;
          simpl in Hp; try discriminate.
        inversion Hp; subst x.
        assert (In p (filter (fun p0 => N.eqb (Player.id p0) (PlayClient.playerId c0))
                             (Db.players db0))) as I by (rewrite F; now left).
        apply filter_In in I. destruct I as [_ I]. now apply N.eqb_eq. }
      repeat split.
Qed.

Lemma submitAnswer_stores_trimmed_witness :
  PlayClient.submitAnswer (PlayClient.setAnswer Demo.alice0 (js "  ")) Demo.db_q1 2200%Z 30%N
  = (PlayClient.setAnswer Demo.alice0 (js "  "), Demo.db_q1, Returned)
  /\
  exists p a,
    single (filter (fun p => N.eqb (Player.id p) 10%N) (Db.players Demo.db_q1)) = Some p /\
    Db.answers Demo.db_a = Db.answers Demo.db_q1 ++ [a] /\
    Answer.player_id a = Player.id p /\
    Answer.room_id a = Some (Player.room_id p) /\
    Answer.text a = trim (js " 4 ") /\
    Answer.is_correct a = false.
Proof.
  split.
  - apply (proj1 submitAnswer_stores_trimmed). reflexivity.
  - exact (proj2 (proj2 submitAnswer_stores_trimmed)
             (PlayClient.init 10%N) Demo.alice0 Demo.db_q1 Demo.db_q1 Demo.db_q1
             1000%Z 2200%Z (js " 4 ") 30%N eq_refl eq_refl).
Defined.





(** Nothing in the answers table ties (player_id, question_id): a second
    PlayClient of the same player, mounted before the first answer was
    stored, stores a second answer for the same question. *)
Lemma submitAnswer_second_client_stores_again :
  let tab2 := PlayClient.setAnswer Demo.alice0 (js "four") in
  let res := PlayClient.submitAnswer tab2 Demo.db_a 3000%Z 32%N in
  snd res = Completed /\
  List.length (answersFor (snd (fst res)) 10%N 20%N) = 2%nat.
Proof. split; reflexivity. Qed.

(** ** createRoom *)

Lemma generateRoomCode_length (rnd : jsstring) :
  List.length (generateRoomCode rnd) = Nat.min 6 (List.length rnd - 2).
Proof.
  unfold generateRoomCode, toUpperCase, substring.
  rewrite length_map, length_firstn, length_skipn. reflexivity.
Qed.

Lemma insert_room_keeps_codes_unique (db db' : Db.t) (r : Room.t) :
  codes_unique db -> insert_room db r = inr db' -> codes_unique db'.
Proof.
  unfold codes_unique, insert_room. intros U.
  destruct (has_room db (Room.id r)); simpl; [discriminate|].
  destruct (has_code db (Room.code r)) eqn:C; [discriminate|].
  intros E; inversion E; subst; simpl.
  rewrite map_app. simpl. apply NoDup_app; [assumption | repeat constructor; auto |].
  intros c Hc [<-|[]]. unfold has_code in C.
  rewrite existsb_false_iff in C. apply in_map_iff in Hc.
  destruct Hc as [x [Ex Hx]]. specialize (C x Hx).
  assert (jsstring_eqb (Room.code x) (Room.code r) = true) by now apply jsstring_eqb_eq.
  congruence.
Qed.

(** C6, as the code has it.  createRoom draws one code and issues one
    insert.  The room is created, with that code, exactly when the id is
    fresh and no stored room (active or not) has the code; otherwise the
    call fails at once on the uniqueness violation and the database is
    as it was.  No second code is drawn. *)
Theorem createRoom_single_attempt (db : Db.t) (rnd : jsstring) (host i : uuid) :
  let created :=
    Room.mk i (generateRoomCode rnd) (js "Nouvelle partie") (Some host) true in
  HomePage.createRoom db rnd host i =
  if has_room db i || has_code db (generateRoomCode rnd)
  then (db, Caught (DbError UniqueViolation))
  else (Db.mk (Db.rooms db ++ [created]) (Db.players db) (Db.questions db)
              (Db.answers db),
        Completed).
Proof.
  unfold HomePage.createRoom, insert_room. simpl.
  destruct (has_room db i || has_code db (generateRoomCode rnd)); reflexivity.
Qed.

(** C6, as stated, fails.  With room ABC123 stored, a draw that yields
    ABC123 again makes createRoom fail on its first and only attempt,
    although any other draw, such as the one yielding ZZZ999, creates the
    room; and the draw "0.i" (Math.random() = 0.5) creates a room whose
    code is the single character I. *)
Lemma createRoom_no_retry_no_six :
  HomePage.createRoom Demo.db_room (js "0.abc123k7") 8%N 2%N
    = (Demo.db_room, Caught (DbError UniqueViolation)) /\
  snd (HomePage.createRoom Demo.db_room (js "0.zzz999k7") 8%N 2%N) = Completed /\
  snd (HomePage.createRoom Demo.db_room (js "0.i") 8%N 2%N) = Completed /\
  map Room.code
      (filter (fun r => N.eqb (Room.id r) 2%N)
              (Db.rooms (fst (HomePage.createRoom Demo.db_room (js "0.i") 8%N 2%N))))
    = [js "I"] /\
  ~ (forall (db db' : Db.t) (rnd : jsstring) (host i : uuid) (r : Room.t),
        HomePage.createRoom db rnd host i = (db', Completed) ->
        In r (Db.rooms db') -> Room.id r = i ->
        List.length (Room.code r) = 6%nat).
Proof.
  split; [reflexivity|]. split; [reflexivity|]. split; [reflexivity|].
  split; [reflexivity|].
  intros H.
  specialize (H emptyDb (fst (HomePage.createRoom emptyDb (js "0.i") 8%N 2%N))
                (js "0.i") 8%N 2%N
                (Room.mk 2%N (js "I") (js "Nouvelle partie") (Some 8%N) true)
                eq_refl (or_introl eq_refl) eq_refl).
  discriminate.
Qed.

(** ** endGame *)



(** The tables after a confirmed [endGame], row by row. *)
Lemma endGame_tables (h : HostClient.state) (db : Db.t) :
  let db' := snd (fst (HostClient.endGame h db true)) in
  (forall r, In r (Db.rooms db') ->
             In r (Db.rooms db) /\ Room.id r <> HostClient.roomId h) /\
  (forall p, In p (Db.players db') ->
             In p (Db.players db) /\ Player.room_id p <> HostClient.roomId h) /\
  (forall q, In q (Db.questions db') ->
             In q (Db.questions db) /\ Question.room_id q <> HostClient.roomId h) /\
  (forall a, In a (Db.answers db') ->
             In a (Db.answers db) /\
             Answer.room_id a <> Some (HostClient.roomId h) /\
             (forall p, In p (Db.players db) ->
                        Player.room_id p = HostClient.roomId h ->
                        Player.id p <> Answer.player_id a) /\
             (forall q, In q (Db.questions db) ->
                        Question.room_id q = HostClient.roomId h ->
                        Question.id q <> Answer.question_id a)).
Proof.
  unfold HostClient.endGame; simpl.
  split; [|split; [|split]].
  - intros r Hr. unfold delete_rooms in Hr; simpl in Hr.
    apply In_delete in Hr. destruct Hr as [Hr Hs]. split; [assumption|].
    now apply N.eqb_neq.
  - intros p Hp. unfold delete_rooms in Hp; simpl in Hp.
    apply In_delete in Hp. destruct Hp as [Hp _].
    apply In_delete in Hp. destruct Hp as [Hp Hs]. split; [assumption|].
    now apply N.eqb_neq.
  - intros q Hq. unfold delete_rooms in Hq; simpl in Hq.
    apply In_delete in Hq. destruct Hq as [Hq _].
    apply In_delete in Hq. destruct Hq as [Hq Hs]. split; [assumption|].
    now apply N.eqb_neq.
  - intros a Ha. unfold delete_rooms in Ha; simpl in Ha.
    apply In_delete in Ha. destruct Ha as [Ha _].
    apply In_delete in Ha. destruct Ha as [Ha _].
    apply In_delete in Ha. destruct Ha as [Ha HP].
    apply In_delete in Ha. destruct Ha as [Ha HQ].
    apply In_delete in Ha. destruct Ha as [Ha HA].
    rewrite existsb_false_iff in HP. rewrite existsb_false_iff in HQ.
    split; [assumption|]. split; [|split].
    + intros E. rewrite E in HA. simpl in HA. rewrite N.eqb_refl in HA. discriminate.
    + intros p Hp Hr. apply N.eqb_neq. apply HP. apply filter_In.
      split; [exact Hp | now apply N.eqb_eq].
    + intros q Hq Hr. apply N.eqb_neq. apply HQ. apply filter_In.
      split; [exact Hq | now apply N.eqb_eq].
Qed.

Lemma NoDup_map_inj {A B} (f : A -> B) (l : list A) (x y : A) :
  NoDup (map f l) -> In x l -> In y l -> f x = f y -> x = y.
Proof.
  induction l as [|a l IH]; simpl; intros N Hx Hy E; [contradiction|].
  inversion N as [|? ? Hn N']; subst.
  destruct Hx as [<-|Hx], Hy as [<-|Hy]; auto.
  - exfalso. apply Hn. rewrite E. now apply in_map.
  - exfalso. apply Hn. rewrite <- E. now apply in_map.
Qed.


Lemma filter_none {A} (sel : A -> bool) (l : list A) :
  (forall x, In x l -> sel x = false) -> filter sel l = [].
Proof. apply filter_nil_iff. Qed.






(** * Further properties *)

(** ** Room codes *)

Lemma In_firstn {A} (n : nat) (l : list A) (x : A) :
  In x (firstn n l) -> In x l.
Proof.
  revert l. induction n as [|n IH]; intros [|a l]; simpl; try tauto.
  intros [->|H]; [now left | right; now apply IH].
Qed.

Lemma upperUnit_base36 (c : N) : base36 c = true -> codeChar (upperUnit c) = true.
Proof.
  unfold base36, codeChar, upperUnit. intros H.
  destruct ((97 <=? c) && (c <=? 122))%N eqn:L.
  - apply andb_true_iff in L. destruct L as [L1 L2].
    apply N.leb_le in L1, L2. apply orb_true_iff. right.
    apply andb_true_iff. split; apply N.leb_le; lia.
  - rewrite orb_false_r in H. rewrite H. reflexivity.
Qed.

Lemma codeChar_not_space (c : N) : codeChar c = true -> isWhiteSpace c = false.
Proof.
  unfold codeChar, isWhiteSpace. intros H.
  apply orb_true_iff in H.
  repeat rewrite orb_false_iff. 
  destruct H as [H|H]; apply andb_true_iff in H; destruct H as [H1 H2];
    apply N.leb_le in H1, H2;
    repeat split;
    try (apply andb_false_iff; (left; apply N.leb_gt; lia) || (right; apply N.leb_gt; lia));
    try (apply N.eqb_neq; lia).
Qed.

Lemma codeChar_upper (c : N) : codeChar c = true -> upperUnit c = c.
Proof.
  unfold codeChar, upperUnit. intros H.
  destruct ((97 <=? c) && (c <=? 122))%N eqn:L; [|reflexivity].
  apply andb_true_iff in L. destruct L as [L1 L2]. apply N.leb_le in L1, L2.
  apply orb_true_iff in H.
  destruct H as [H|H]; apply andb_true_iff in H; destruct H as [H1 H2];
    apply N.leb_le in H1, H2; lia.
Qed.

Lemma trim_no_space (s : jsstring) :
  forallb (fun c => negb (isWhiteSpace c)) s = true -> trim s = s.
Proof.
  intros H. unfold trim.
  assert (S : forall t, forallb (fun c => negb (isWhiteSpace c)) t = true ->
                        trimStart t = t).
  { intros [|c t]; simpl; [reflexivity|]. intros E.
    apply andb_true_iff in E. destruct E as [E _].
    apply negb_true_iff in E. rewrite E. reflexivity. }
  rewrite (S s H). unfold trimEnd. rewrite S.
  - apply rev_involutive.
  - rewrite forallb_forall in *. intros x Hx. apply H. now apply in_rev.
Qed.

(** X1. For a draw "0." followed by base-36 digits, the room code is the
    first six digits (all of them when there are fewer) with the letters
    in upper case: at most 6 characters, each 0-9 or A-Z, six exactly
    when the draw has six digits or more; and it is the code joinRoom
    looks up when a player types it, in upper or in lower case. *)
Theorem generateRoomCode_shape (ds : jsstring) :
  forallb base36 ds = true ->
  let code := generateRoomCode (js "0." ++ ds) in
  code = toUpperCase (firstn 6 ds) /\
  List.length code = Nat.min 6 (List.length ds) /\
  forallb codeChar code = true /\
  toUpperCase (trim code) = code /\
  toUpperCase (trim (firstn 6 ds)) = code.
Proof.
  intros H code.
  assert (E : code = toUpperCase (firstn 6 ds)) by reflexivity.
  assert (F : forallb base36 (firstn 6 ds) = true).
  { rewrite forallb_forall in *. intros x Hx. apply H.
    eapply In_firstn; eauto. }
  assert (C : forallb codeChar code = true).
  { rewrite E. unfold toUpperCase. rewrite forallb_forall in *.
    intros x Hx. apply in_map_iff in Hx. destruct Hx as [y [<- Hy]].
    apply upperUnit_base36. now apply F. }
  split; [exact E|]. split.
  { rewrite E. unfold toUpperCase. rewrite length_map, length_firstn. reflexivity. }
  split; [exact C|]. split.
  - rewrite trim_no_space.
    + unfold toUpperCase. rewrite <- (map_id code) at 2. apply map_ext_in.
      intros c Hc. apply codeChar_upper. rewrite forallb_forall in C. now apply C.
    + rewrite forallb_forall in *. intros x Hx. apply negb_true_iff.
      apply codeChar_not_space. now apply C.
  - rewrite trim_no_space; [symmetry; exact E|].
    rewrite forallb_forall in *. intros x Hx. apply negb_true_iff.
    specialize (F x Hx). unfold base36 in F. unfold isWhiteSpace.
    apply orb_true_iff in F.
    repeat rewrite orb_false_iff.
    destruct F as [F|F]; apply andb_true_iff in F; destruct F as [F1 F2];
      apply N.leb_le in F1, F2;
      repeat split;
      try (apply andb_false_iff; (left; apply N.leb_gt; lia) || (right; apply N.leb_gt; lia));
      try (apply N.eqb_neq; lia).
Qed.

Lemma generateRoomCode_shape_witness :
  forallb base36 (js "k3z9q07ab") = true /\
  generateRoomCode (js "0." ++ js "k3z9q07ab") = js "K3Z9Q0".
Proof.
  split; [reflexivity|].
  exact (proj1 (generateRoomCode_shape (js "k3z9q07ab") eq_refl)).
Defined.

(** ** joinRoom and the pages *)

Lemma insert_player_cases (db : Db.t) (p : Player.t) :
  match insert_player db p with
  | inl _ => has_player db (Player.id p) = true \/ has_room db (Player.room_id p) = false
  | inr db' =>
      has_player db (Player.id p) = false /\ has_room db (Player.room_id p) = true /\
      db' = Db.mk (Db.rooms db) (Db.players db ++ [p]) (Db.questions db) (Db.answers db)
  end.
Proof.
  unfold insert_player.
  destruct (has_player db (Player.id p)); [auto|].
  destruct (has_room db (Player.room_id p)); simpl; auto.
Qed.

Lemma has_room_In (db : Db.t) (r : Room.t) :
  In r (Db.rooms db) -> has_room db (Room.id r) = true.
Proof.
  intros H. unfold has_room. apply existsb_exists. exists r.
  split; [assumption | apply N.eqb_refl].
Qed.

Lemma single_filter_unique {A B} (f : A -> B) (sel : A -> bool) (l : list A) (x : A) :
  NoDup (map f l) -> In x l -> sel x = true ->
  (forall y, In y l -> sel y = true -> f y = f x) ->
  single (filter sel l) = Some x.
Proof.
  intros N Hx Sx U.
  assert (K : forall y, In y (filter sel l) -> y = x).
  { intros y Hy. apply filter_In in Hy. destruct Hy as [Hy Sy].
    apply (@NoDup_map_inj _ _ f l); auto. }
  assert (Nf : NoDup (filter sel l)).
  { apply NoDup_filter. exact (NoDup_map_inv f l N). }
  assert (Ix : In x (filter sel l)) by (apply filter_In; auto).
  destruct (filter sel l) as [|a [|b t]]; simpl in *.
  - contradiction.
  - destruct Ix as [->|[]]. reflexivity.
  - exfalso. assert (a = x) by (apply K; auto). assert (b = x) by (apply K; auto).
    subst. inversion Nf as [|? ? Hn _]. apply Hn. now left.
Qed.

Lemma joinRoom_cases (s : HomePage.state) (db : Db.t) (i : uuid) :
  ascii_only (HomePage.roomCode s) ->
  let code := toUpperCase (trim (HomePage.roomCode s)) in
  let res := HomePage.joinRoom s db i in
  (fst res = db \/
   exists room,
     In room (Db.rooms db) /\ Room.code room = code /\ Room.is_active room = true /\
     snd res = Completed /\
     fst res = Db.mk (Db.rooms db)
                     (Db.players db ++
                        [Player.mk i (trim (HomePage.pseudo s)) (Room.id room) 0 true])
                     (Db.questions db) (Db.answers db)) /\
  (forall room,
      codes_unique db -> In room (Db.rooms db) -> Room.code room = code ->
      truthy code = true -> truthy (trim (HomePage.pseudo s)) = true ->
      (Room.is_active room = true -> has_player db i = false ->
       snd res = Completed /\
       Db.players (fst res) =
         Db.players db ++
           [Player.mk i (trim (HomePage.pseudo s)) (Room.id room) 0 true]) /\
      (Room.is_active room = false -> res = (db, Caught SalleIntrouvable))).
Proof.
  intros _ code res. subst res. unfold HomePage.joinRoom. fold code.
  split.
  - destruct (negb (truthy code) || negb (truthy (trim (HomePage.pseudo s))));
      [left; reflexivity|].
    destruct (single _) as [room|] eqn:S; [|left; reflexivity].
    pose proof (insert_player_cases db
                  (Player.mk i (trim (HomePage.pseudo s)) (Room.id room) 0 true)) as C.
    destruct (insert_player db _) as [e|db']; [left; reflexivity|].
    destruct C as [_ [_ ->]]. right. exists room.
    assert (I : In room (filter (fun r => jsstring_eqb (Room.code r) code
                                          && Bool.eqb (Room.is_active r) true)
                                (Db.rooms db))).
    { destruct (filter _ (Db.rooms db)) as [|a [|b t]]; simpl in S; try discriminate.
      inversion S; subst. now left. }
    apply filter_In in I. destruct I as [I J].
    apply andb_true_iff in J. destruct J as [J1 J2].
    apply jsstring_eqb_eq in J1. rewrite eqb_true in J2. auto 6.
  - intros room U Hin Hcode Hc Hn. rewrite Hc, Hn. simpl.
    split.
    + intros Ha Hp.
      rewrite (@single_filter_unique _ _ Room.code _ (Db.rooms db) room U Hin).
      * pose proof (insert_player_cases db
                      (Player.mk i (trim (HomePage.pseudo s)) (Room.id room) 0 true)) as C.
        destruct (insert_player db _) as [e|db']; simpl in *.
        -- rewrite (has_room_In db room Hin) in C. destruct C; congruence.
        -- destruct C as [_ [_ ->]]. split; reflexivity.
      * rewrite Ha. simpl. rewrite andb_true_r. now apply jsstring_eqb_eq.
      * intros y Hy Sy. apply andb_true_iff in Sy. destruct Sy as [Sy _].
        apply jsstring_eqb_eq in Sy. congruence.
    + intros Ha.
      assert (E : filter (fun r => jsstring_eqb (Room.code r) code
                                   && Bool.eqb (Room.is_active r) true)
                         (Db.rooms db) = []).
      { apply filter_nil_iff. intros r Hr.
        destruct (jsstring_eqb (Room.code r) code) eqn:J; [|reflexivity].
        apply jsstring_eqb_eq in J.
        assert (r = room).
        { apply (@NoDup_map_inj _ _ Room.code (Db.rooms db)); auto. congruence. }
        subst r. rewrite Ha. reflexivity. }
      rewrite E. reflexivity.
Qed.

(** X2. joinRoom changes the database only by adding one player row: the
    pseudo trimmed, score 0, connected, in an active room whose code is
    the typed code trimmed and upper-cased.  With unique room codes it
    does so whenever such a room exists, the code and the pseudo are not
    blank and the row id is fresh; when the room with that code is not
    active it reports that the room was not found. *)
Theorem joinRoom_adds_player (s : HomePage.state) (db : Db.t) (i : uuid) :
  ascii_only (HomePage.roomCode s) ->
  let code := toUpperCase (trim (HomePage.roomCode s)) in
  let res := HomePage.joinRoom s db i in
  (fst res = db \/
   exists room,
     In room (Db.rooms db) /\ Room.code room = code /\ Room.is_active room = true /\
     snd res = Completed /\
     fst res = Db.mk (Db.rooms db)
                     (Db.players db ++
                        [Player.mk i (trim (HomePage.pseudo s)) (Room.id room) 0 true])
                     (Db.questions db) (Db.answers db)) /\
  (forall room,
      codes_unique db -> In room (Db.rooms db) -> Room.code room = code ->
      truthy code = true -> truthy (trim (HomePage.pseudo s)) = true ->
      (Room.is_active room = true -> has_player db i = false ->
       snd res = Completed /\
       Db.players (fst res) =
         Db.players db ++
           [Player.mk i (trim (HomePage.pseudo s)) (Room.id room) 0 true]) /\
      (Room.is_active room = false -> res = (db, Caught SalleIntrouvable))).
Proof. exact (joinRoom_cases s db i). Qed.

Lemma joinRoom_adds_player_witness :
  Db.players (fst (HomePage.joinRoom (HomePage.mk (js " abc123 ") (js " Carol "))
                                     Demo.db_players 12%N))
  = Db.players Demo.db_players ++ [Player.mk 12%N (js "Carol") 1%N 0 true].
Proof.
  assert (A : ascii_only (js " abc123 ")).
  { unfold ascii_only. simpl. repeat constructor. }
  assert (U : codes_unique Demo.db_players).
  { unfold codes_unique. simpl. repeat constructor. intros []. }
  exact (proj2 (proj1 (proj2 (joinRoom_adds_player
                               (HomePage.mk (js " abc123 ") (js " Carol "))
                               Demo.db_players 12%N A)
                             Demo.the_room U (or_introl eq_refl) eq_refl eq_refl eq_refl)
                      eq_refl eq_refl)).
Defined.

Lemma has_code_false (db : Db.t) (c : jsstring) (r : Room.t) :
  has_code db c = false -> In r (Db.rooms db) -> Room.code r <> c.
Proof.
  unfold has_code. rewrite existsb_false_iff. intros H Hr E.
  specialize (H r Hr). apply jsstring_eqb_eq in E. congruence.
Qed.

Lemma has_room_false (db : Db.t) (i : uuid) (r : Room.t) :
  has_room db i = false -> In r (Db.rooms db) -> Room.id r <> i.
Proof.
  unfold has_room. rewrite existsb_false_iff. intros H Hr E.
  specialize (H r Hr). apply N.eqb_neq in H. contradiction.
Qed.

Lemma createRoom_single_attempt_eq (db : Db.t) (rnd : jsstring) (host i : uuid) :
  HomePage.createRoom db rnd host i =
  if has_room db i || has_code db (generateRoomCode rnd)
  then (db, Caught (DbError UniqueViolation))
  else (Db.mk (Db.rooms db ++
                 [Room.mk i (generateRoomCode rnd) (js "Nouvelle partie") (Some host) true])
              (Db.players db) (Db.questions db) (Db.answers db),
        Completed).
Proof.
  unfold HomePage.createRoom, insert_room. simpl.
  destruct (has_room db i || has_code db (generateRoomCode rnd)); reflexivity.
Qed.

Lemma createRoom_completed (db db1 : Db.t) (rnd : jsstring) (host i : uuid) :
  HomePage.createRoom db rnd host i = (db1, Completed) ->
  has_room db i = false /\ has_code db (generateRoomCode rnd) = false /\
  db1 = Db.mk (Db.rooms db ++
                 [Room.mk i (generateRoomCode rnd) (js "Nouvelle partie") (Some host) true])
              (Db.players db) (Db.questions db) (Db.answers db).
Proof.
  rewrite createRoom_single_attempt_eq.
  destruct (has_room db i); simpl; [discriminate|].
  destruct (has_code db (generateRoomCode rnd)); [discriminate|].
  intros E; inversion E; auto.
Qed.

(** X3. A room that createRoom has just created can be joined with its
    code: after a createRoom that completed on a database with unique
    codes, joinRoom with a typed code that trims and upper-cases to the
    generated code (the code itself, or its lower-case digits with
    spaces around), a non-blank pseudo and a fresh row id completes and
    puts the player, with score 0, into the created room. *)
Theorem createRoom_then_joinRoom (db db1 : Db.t) (rnd : jsstring) (host i j : uuid)
        (s : HomePage.state) :
  codes_unique db ->
  HomePage.createRoom db rnd host i = (db1, Completed) ->
  ascii_only (HomePage.roomCode s) ->
  toUpperCase (trim (HomePage.roomCode s)) = generateRoomCode rnd ->
  truthy (generateRoomCode rnd) = true ->
  truthy (trim (HomePage.pseudo s)) = true ->
  has_player db1 j = false ->
  HomePage.joinRoom s db1 j =
  (Db.mk (Db.rooms db1)
         (Db.players db1 ++ [Player.mk j (trim (HomePage.pseudo s)) i 0 true])
         (Db.questions db1) (Db.answers db1),
   Completed).
Proof.
  intros U C A Hcode Hc Hn Hj.
  destruct (createRoom_completed _ _ _ _ C) as [Hi [Hco E]].
  set (room := Room.mk i (generateRoomCode rnd) (js "Nouvelle partie") (Some host) true) in *.
  assert (U1 : codes_unique db1).
  { apply (@insert_room_keeps_codes_unique db db1 room U).
    unfold insert_room. simpl. rewrite Hi, Hco. simpl. now rewrite E. }
  assert (In1 : In room (Db.rooms db1)).
  { rewrite E. simpl. apply in_or_app. right. now left. }
  destruct (joinRoom_cases s db1 j A) as [_ H].
  destruct (H room U1 In1 (eq_sym Hcode)) as [H1 _]; [now rewrite Hcode | assumption |].
  destruct (H1 eq_refl Hj) as [Ho Hp].
  unfold HomePage.joinRoom in *. rewrite Hcode, Hc, Hn in *. simpl in *.
  destruct (single _) as [r|]; [|discriminate].
  destruct (insert_player db1 _) as [e|db2] eqn:Ins; [discriminate|].
  pose proof (insert_player_cases db1
                (Player.mk j (trim (HomePage.pseudo s)) (Room.id r) 0 true)) as K.
  rewrite Ins in K. destruct K as [_ [_ ->]]. simpl in Hp.
  apply app_inv_head in Hp. inversion Hp as [Hid]. reflexivity.
Qed.

Lemma createRoom_then_joinRoom_witness :
  HomePage.joinRoom (HomePage.mk (js " abc123 ") (js "Alice")) Demo.db_room 10%N
  = (Demo.db_alice, Completed).
Proof.
  assert (A : ascii_only (js " abc123 ")).
  { unfold ascii_only. simpl. repeat constructor. }
  exact (@createRoom_then_joinRoom emptyDb Demo.db_room (js "0.abc123xyz") 7%N 1%N 10%N
           (HomePage.mk (js " abc123 ") (js "Alice"))
           (NoDup_nil _) eq_refl A eq_refl eq_refl eq_refl eq_refl).
Defined.

Lemma single_filter_none {A} (sel : A -> bool) (l : list A) :
  (forall x, In x l -> sel x = false) -> single (filter sel l) = None.
Proof. intros H. rewrite (filter_none sel l H). reflexivity. Qed.

(** X4. The host page finds the room exactly while it is stored: right
    after a createRoom that completed, HostPage for the new id mounts the
    host client on the created room (with its generated code); after a
    confirmed endGame of a room, HostPage for that room is notFound. *)
Theorem HostPage_follows_room :
  (forall (db db1 : Db.t) (rnd : jsstring) (host i : uuid),
      HomePage.createRoom db rnd host i = (db1, Completed) ->
      HostPage db1 i =
      Some (HostClient.init
              (Room.mk i (generateRoomCode rnd) (js "Nouvelle partie") (Some host) true)
              i)) /\
  (forall (h : HostClient.state) (db : Db.t),
      HostPage (snd (fst (HostClient.endGame h db true))) (HostClient.roomId h) = None).
Proof.
  split.
  - intros db db1 rnd host i C.
    destruct (createRoom_completed _ _ _ _ C) as [Hi [_ ->]].
    unfold HostPage. simpl. rewrite filter_app. simpl. rewrite N.eqb_refl.
    rewrite filter_none; [reflexivity|].
    intros r Hr. apply N.eqb_neq. now apply (has_room_false db).
  - intros h db. unfold HostPage. rewrite single_filter_none; [reflexivity|].
    intros r Hr. apply N.eqb_neq.
    destruct (endGame_tables h db) as [TR _]. now apply TR.
Qed.

Lemma HostPage_follows_room_witness :
  HostPage Demo.db_room 1%N = Some (HostClient.init Demo.the_room 1%N).
Proof.
  exact (proj1 HostPage_follows_room emptyDb Demo.db_room (js "0.abc123xyz")
               7%N 1%N eq_refl).
Defined.

(** ** Keys and references *)

Lemma NoDup_map_filter {A B} (f : A -> B) (g : A -> bool) (l : list A) :
  NoDup (map f l) -> NoDup (map f (filter g l)).
Proof.
  induction l as [|a l IH]; simpl; intros N; [constructor|].
  inversion N as [|? ? Hn N']; subst.
  destruct (g a); simpl; [|now apply IH].
  constructor; [|now apply IH].
  intros H. apply Hn. apply in_map_iff in H. destruct H as [x [E Hx]].
  apply filter_In in Hx. apply in_map_iff. exists x. tauto.
Qed.

Lemma map_update {A B} (f : A -> B) (sel : A -> bool) (set : A -> A) (l : list A) :
  (forall x, f (set x) = f x) -> map f (update sel set l) = map f l.
Proof.
  intros H. unfold update. rewrite map_map. apply map_ext.
  intros x. destruct (sel x); auto.
Qed.

Lemma existsb_update {A} (g : A -> bool) (sel : A -> bool) (set : A -> A) (l : list A) :
  (forall x, g (set x) = g x) -> existsb g (update sel set l) = existsb g l.
Proof.
  intros H. unfold update. induction l as [|a l IH]; simpl; [reflexivity|].
  rewrite IH. destruct (sel a); rewrite ?H; reflexivity.
Qed.

Lemma NoDup_map_snoc {A B} (f : A -> B) (l : list A) (x : A) :
  NoDup (map f l) -> (forall y, In y l -> f y <> f x) -> NoDup (map f (l ++ [x])).
Proof.
  intros N H. rewrite map_app. simpl. apply NoDup_app; [assumption | repeat constructor; auto |].
  intros b Hb [<-|[]]. apply in_map_iff in Hb. destruct Hb as [y [E Hy]].
  exact (H y Hy E).
Qed.

Lemma existsb_snoc {A} (g : A -> bool) (l : list A) (x : A) :
  existsb g l = true -> existsb g (l ++ [x]) = true.
Proof. intros H. rewrite existsb_app, H. reflexivity. Qed.

Lemma has_player_false (db : Db.t) (i : uuid) (p : Player.t) :
  has_player db i = false -> In p (Db.players db) -> Player.id p <> i.
Proof.
  unfold has_player. rewrite existsb_false_iff. intros H Hp E.
  specialize (H p Hp). apply N.eqb_neq in H. contradiction.
Qed.

Lemma has_question_false (db : Db.t) (i : uuid) (q : Question.t) :
  has_question db i = false -> In q (Db.questions db) -> Question.id q <> i.
Proof.
  unfold has_question. rewrite existsb_false_iff. intros H Hq E.
  specialize (H q Hq). apply N.eqb_neq in H. contradiction.
Qed.

Lemma has_answer_false (db : Db.t) (i : uuid) (a : Answer.t) :
  has_answer db i = false -> In a (Db.answers db) -> Answer.id a <> i.
Proof.
  unfold has_answer. rewrite existsb_false_iff. intros H Ha E.
  specialize (H a Ha). apply N.eqb_neq in H. contradiction.
Qed.

(** Inserts that the database accepts keep the constraints. *)
Lemma wf_insert_room (db db' : Db.t) (r : Room.t) :
  wf db -> insert_room db r = inr db' -> wf db'.
Proof.
  intros W E. pose proof (@insert_room_keeps_codes_unique db db' r (wf_codes W) E) as U.
  unfold insert_room in E.
  destruct (has_room db (Room.id r)) eqn:Hr; simpl in E; [discriminate|].
  destruct (has_code db (Room.code r)); [discriminate|].
  inversion E; subst; clear E. destruct W.
  constructor; simpl; auto.
  - apply NoDup_map_snoc; [assumption|]. intros y Hy. now apply (has_room_false db).
  - intros p Hp. unfold has_room; simpl. apply existsb_snoc. now apply wf_player_room0.
  - intros q Hq. unfold has_room; simpl. apply existsb_snoc. now apply wf_question_room0.
Qed.

Lemma wf_insert_player (db db' : Db.t) (p : Player.t) :
  wf db -> insert_player db p = inr db' -> wf db'.
Proof.
  intros W E. pose proof (insert_player_cases db p) as C. rewrite E in C.
  destruct C as [Hp [Hr ->]]. destruct W.
  constructor; simpl; auto.
  - apply NoDup_map_snoc; [assumption|]. intros y Hy. now apply (has_player_false db).
  - intros x Hx. apply in_app_or in Hx.
    destruct Hx as [Hx|[<-|[]]]; unfold has_room, has_player, has_question in *; auto.
  - intros a Ha. unfold has_player; simpl. apply existsb_snoc. now apply wf_answer_player0.
Qed.

Lemma wf_insert_question (db db' : Db.t) (q : Question.t) :
  wf db -> insert_question db q = inr db' -> wf db'.
Proof.
  intros W E. apply insert_question_inr in E. destruct E as [Hq [Hr ->]]. destruct W.
  constructor; simpl; auto.
  - apply NoDup_map_snoc; [assumption|]. intros y Hy. now apply (has_question_false db).
  - intros x Hx. apply in_app_or in Hx.
    destruct Hx as [Hx|[<-|[]]]; unfold has_room, has_player, has_question in *; auto.
  - intros a Ha. unfold has_question; simpl. apply existsb_snoc.
    now apply wf_answer_question0.
Qed.

Lemma insert_answer_cases (db : Db.t) (a : Answer.t) :
  match insert_answer db a with
  | inl _ => has_answer db (Answer.id a) = true \/
             has_player db (Answer.player_id a) = false \/
             has_question db (Answer.question_id a) = false
  | inr db' =>
      has_answer db (Answer.id a) = false /\
      has_player db (Answer.player_id a) = true /\
      has_question db (Answer.question_id a) = true /\
      db' = Db.mk (Db.rooms db) (Db.players db) (Db.questions db) (Db.answers db ++ [a])
  end.
Proof.
  unfold insert_answer.
  destruct (has_answer db (Answer.id a)); [auto|].
  destruct (has_player db (Answer.player_id a)); simpl; [|auto].
  destruct (has_question db (Answer.question_id a)); simpl; auto.
Qed.

Lemma wf_insert_answer (db db' : Db.t) (a : Answer.t) :
  wf db -> insert_answer db a = inr db' -> wf db'.
Proof.
  intros W E. pose proof (insert_answer_cases db a) as C. rewrite E in C.
  destruct C as [Ha [Hp [Hq ->]]]. destruct W.
  constructor; simpl; auto.
  - apply NoDup_map_snoc; [assumption|]. intros y Hy. now apply (has_answer_false db).
  - intros x Hx. apply in_app_or in Hx.
    destruct Hx as [Hx|[<-|[]]]; unfold has_room, has_player, has_question in *; auto.
  - intros x Hx. apply in_app_or in Hx.
    destruct Hx as [Hx|[<-|[]]]; unfold has_room, has_player, has_question in *; auto.
Qed.

(** Updates that leave the key columns alone keep the constraints. *)
Lemma wf_update_players (db : Db.t) (sel : Player.t -> bool) (set : Player.t -> Player.t) :
  (forall p, Player.id (set p) = Player.id p) ->
  (forall p, Player.room_id (set p) = Player.room_id p) ->
  wf db ->
  wf (Db.mk (Db.rooms db) (update sel set (Db.players db)) (Db.questions db)
            (Db.answers db)).
Proof.
  intros Hid Hr W. destruct W.
  constructor; simpl; auto.
  - rewrite map_update; auto.
  - intros p Hp. apply In_update in Hp. destruct Hp as [x [Hx ->]].
    unfold has_room in *; simpl.
    destruct (sel x); rewrite ?Hr; now apply wf_player_room0.
  - intros a Ha. unfold has_player in *; simpl. rewrite existsb_update.
    + now apply wf_answer_player0.
    + intros x. now rewrite Hid.
Qed.

Lemma wf_update_questions (db : Db.t) (sel : Question.t -> bool)
      (set : Question.t -> Question.t) :
  (forall q, Question.id (set q) = Question.id q) ->
  (forall q, Question.room_id (set q) = Question.room_id q) ->
  wf db ->
  wf (Db.mk (Db.rooms db) (Db.players db) (update sel set (Db.questions db))
            (Db.answers db)).
Proof.
  intros Hid Hr W. destruct W.
  constructor; simpl; auto.
  - rewrite map_update; auto.
  - intros q Hq. apply In_update in Hq. destruct Hq as [x [Hx ->]].
    unfold has_room in *; simpl.
    destruct (sel x); rewrite ?Hr; now apply wf_question_room0.
  - intros a Ha. unfold has_question in *; simpl. rewrite existsb_update.
    + now apply wf_answer_question0.
    + intros x. now rewrite Hid.
Qed.

Lemma wf_update_answers (db : Db.t) (sel : Answer.t -> bool) (set : Answer.t -> Answer.t) :
  (forall a, Answer.id (set a) = Answer.id a) ->
  (forall a, Answer.player_id (set a) = Answer.player_id a) ->
  (forall a, Answer.question_id (set a) = Answer.question_id a) ->
  wf db ->
  wf (Db.mk (Db.rooms db) (Db.players db) (Db.questions db)
            (update sel set (Db.answers db))).
Proof.
  intros Hid Hp Hq W. destruct W.
  constructor; simpl; auto.
  - rewrite map_update; auto.
  - intros a Ha. apply In_update in Ha. destruct Ha as [x [Hx ->]].
    unfold has_player in *; simpl.
    destruct (sel x); rewrite ?Hp; now apply wf_answer_player0.
  - intros a Ha. apply In_update in Ha. destruct Ha as [x [Hx ->]].
    unfold has_question in *; simpl.
    destruct (sel x); rewrite ?Hq; now apply wf_answer_question0.
Qed.

(** Deletes, with their cascades, keep the constraints. *)
Lemma wf_delete_answers (sel : Answer.t -> bool) (db : Db.t) :
  wf db -> wf (delete_answers sel db).
Proof.
  intros W. destruct W. unfold delete_answers, delete.
  constructor; simpl; auto.
  - now apply NoDup_map_filter.
  - intros a Ha. apply filter_In in Ha. now apply wf_answer_player0.
  - intros a Ha. apply filter_In in Ha. now apply wf_answer_question0.
Qed.

Lemma wf_delete_questions (sel : Question.t -> bool) (db : Db.t) :
  wf db -> wf (delete_questions sel db).
Proof.
  intros W. destruct W. unfold delete_questions, delete.
  constructor; simpl; auto.
  - now apply NoDup_map_filter.
  - now apply NoDup_map_filter.
  - intros q Hq. apply filter_In in Hq. now apply wf_question_room0.
  - intros a Ha. apply filter_In in Ha. now apply wf_answer_player0.
  - intros a Ha. apply filter_In in Ha. destruct Ha as [Ha Hn].
    apply negb_true_iff in Hn. rewrite existsb_false_iff in Hn.
    specialize (wf_answer_question0 a Ha). unfold has_question in *; simpl.
    apply existsb_exists in wf_answer_question0.
    destruct wf_answer_question0 as [q [Hq Eq]].
    apply existsb_exists. exists q. split; [|assumption].
    apply filter_In. split; [assumption|].
    destruct (sel q) eqn:S; [|reflexivity].
    specialize (Hn q). rewrite filter_In in Hn. specialize (Hn (conj Hq S)). congruence.
Qed.

Lemma wf_delete_players (sel : Player.t -> bool) (db : Db.t) :
  wf db -> wf (delete_players sel db).
Proof.
  intros W. destruct W. unfold delete_players, delete.
  constructor; simpl; auto.
  - now apply NoDup_map_filter.
  - now apply NoDup_map_filter.
  - intros p Hp. apply filter_In in Hp. now apply wf_player_room0.
  - intros a Ha. apply filter_In in Ha. destruct Ha as [Ha Hn].
    apply negb_true_iff in Hn. rewrite existsb_false_iff in Hn.
    specialize (wf_answer_player0 a Ha). unfold has_player in *; simpl.
    apply existsb_exists in wf_answer_player0.
    destruct wf_answer_player0 as [p [Hp Ep]].
    apply existsb_exists. exists p. split; [|assumption].
    apply filter_In. split; [assumption|].
    destruct (sel p) eqn:S; [|reflexivity].
    specialize (Hn p). rewrite filter_In in Hn. specialize (Hn (conj Hp S)). congruence.
  - intros a Ha. apply filter_In in Ha. now apply wf_answer_question0.
Qed.

Lemma wf_delete_rooms (sel : Room.t -> bool) (db : Db.t) :
  wf db -> wf (delete_rooms sel db).
Proof.
  intros W. unfold delete_rooms.
  set (gone := filter sel (Db.rooms db)).
  set (in_gone := fun i => existsb (fun r => N.eqb (Room.id r) i) gone).
  set (db1 := delete_players (fun p => in_gone (Player.room_id p)) db).
  set (db2 := delete_questions (fun q => in_gone (Question.room_id q)) db1).
  change (wf (Db.mk (delete sel (Db.rooms db2)) (Db.players db2) (Db.questions db2)
                    (Db.answers db2))).
  assert (W2 : wf db2) by (apply wf_delete_questions, wf_delete_players, W).
  assert (R : Db.rooms db2 = Db.rooms db) by reflexivity.
  assert (K : forall i, has_room db i = true -> in_gone i = false ->
                        existsb (fun r => N.eqb (Room.id r) i)
                                (delete sel (Db.rooms db)) = true).
  { intros i Hi Hg. unfold has_room in Hi. apply existsb_exists in Hi.
    destruct Hi as [r [Hr Er]]. apply existsb_exists. exists r.
    split; [|assumption]. apply In_delete. split; [assumption|].
    destruct (sel r) eqn:S; [|reflexivity].
    unfold in_gone in Hg. rewrite existsb_false_iff in Hg.
    specialize (Hg r). unfold gone in Hg. rewrite filter_In in Hg.
    specialize (Hg (conj Hr S)). congruence. }
  assert (P2 : forall p, In p (Db.players db2) ->
                         In p (Db.players db) /\ in_gone (Player.room_id p) = false).
  { intros p Hp. unfold db2, db1, delete_questions, delete_players in Hp; simpl in Hp.
    apply In_delete in Hp. exact Hp. }
  assert (Q2 : forall q, In q (Db.questions db2) ->
                         In q (Db.questions db) /\ in_gone (Question.room_id q) = false).
  { intros q Hq. unfold db2, db1, delete_questions, delete_players in Hq; simpl in Hq.
    apply In_delete in Hq. exact Hq. }
  clearbody db2. clear db1. destruct W2.
  constructor; cbn [Db.rooms Db.players Db.questions Db.answers]; auto.
  - rewrite R. unfold delete. apply NoDup_map_filter. exact (wf_room_ids W).
  - unfold codes_unique; cbn [Db.rooms]. rewrite R. unfold delete.
    apply NoDup_map_filter. exact (wf_codes W).
  - intros p Hp. unfold has_room; cbn [Db.rooms]. rewrite R.
    destruct (P2 p Hp) as [Hp' Hg]. apply K; [|assumption].
    now apply (wf_player_room W).
  - intros q Hq. unfold has_room; cbn [Db.rooms]. rewrite R.
    destruct (Q2 q Hq) as [Hq' Hg]. apply K; [|assumption].
    now apply (wf_question_room W).
Qed.

Lemma wf_disablePrevious (h : HostClient.state) (db : Db.t) :
  wf db -> wf (HostClient.disablePrevious h db).
Proof.
  intros W. unfold HostClient.disablePrevious.
  apply wf_update_questions; auto.
Qed.

Lemma wf_empty : wf emptyDb.
Proof.
  constructor; simpl; try constructor; intros ? [].
Qed.

(** Every handler keeps the constraints, whatever the client's state. *)
Lemma wf_step (db db' : Db.t) : wf db -> step db db' -> wf db'.
Proof.
  intros W S. destruct S.
  - unfold HomePage.createRoom.
    destruct (insert_room db _) as [e|db1] eqn:E; simpl; [assumption|].
    eapply wf_insert_room; eassumption.
  - unfold HomePage.joinRoom.
    destruct (_ || _); simpl; [assumption|].
    destruct (single _); simpl; [|assumption].
    destruct (insert_player db _) as [e|db1] eqn:E; simpl; [assumption|].
    eapply wf_insert_player; eassumption.
  - unfold HostClient.sendQuestion.
    destruct (HostClient.questionToSend h qd) as [q|]; simpl; [|assumption].
    destruct (_ || _); simpl; [assumption|].
    destruct (insert_question _ _) as [e|db1] eqn:E; simpl.
    + now apply wf_disablePrevious.
    + apply wf_delete_answers. eapply wf_insert_question; [|eassumption].
      now apply wf_disablePrevious.
  - unfold HostClient.endGame. destruct confirmed; simpl; [|assumption].
    apply wf_delete_rooms, wf_delete_players, wf_delete_questions, wf_delete_answers, W.
  - unfold HostClient.markAnswerCorrect.
    destruct (Answer.is_correct a); simpl; [assumption|].
    apply (wf_update_answers (db := Db.mk _ _ _ _)); auto.
    apply wf_update_players; auto.
  - unfold HostClient.updatePlayerScore.
    destruct (find _ _); simpl; [|assumption].
    apply wf_update_players; auto.
  - unfold PlayClient.loadPlayerData.
    assert (U : forall ref b, wf (PlayClient.updateConnectionStatus c ref db b)).
    { intros ref b. unfold PlayClient.updateConnectionStatus.
      destruct (PlayClient.player c), ref; try assumption.
      apply wf_update_players; auto. }
    destruct (single _) as [p|]; simpl; [|assumption].
    destruct (single _) as [q|]; simpl; [|apply U].
    destruct (single _); simpl; apply U.
  - unfold PlayEvents.updateConnectionStatus, PlayClient.updateConnectionStatus.
    destruct (PlayClient.player c), (PlayClient.playerRoomIdRef c); try assumption.
    apply wf_update_players; auto.
  - unfold PlayClient.submitAnswer.
    destruct (PlayClient.currentQuestion c); simpl; [|assumption].
    destruct (_ || _); simpl; [assumption|].
    destruct (insert_answer db _) as [e|db1] eqn:E; simpl; [assumption|].
    eapply wf_insert_answer; eassumption.
Qed.

Lemma length_filter_delete {A} (f g : A -> bool) (l : list A) :
  (List.length (filter f (delete g l)) <= List.length (filter f l))%nat.
Proof.
  unfold delete. induction l as [|a l IH]; simpl; [lia|].
  destruct (g a), (f a) eqn:F; simpl; rewrite ?F; simpl; lia.
Qed.

Lemma at_most_one_active_questions (db db' : Db.t) :
  Db.questions db' = Db.questions db -> at_most_one_active db -> at_most_one_active db'.
Proof.
  intros E H r. unfold activeQuestions. rewrite E. apply H.
Qed.

Lemma updateConnectionStatus_questions (c : PlayClient.state) (ref : option uuid)
      (db : Db.t) (b : bool) :
  Db.questions (PlayClient.updateConnectionStatus c ref db b) = Db.questions db.
Proof.
  unfold PlayClient.updateConnectionStatus.
  destruct (PlayClient.player c), ref; reflexivity.
Qed.

Lemma at_most_one_active_step (db db' : Db.t) :
  at_most_one_active db -> step db db' -> at_most_one_active db'.
Proof.
  intros H S. destruct S.
  - apply (@at_most_one_active_questions db); [|assumption].
    unfold HomePage.createRoom, insert_room. destruct (_ || _); reflexivity.
  - apply (@at_most_one_active_questions db); [|assumption].
    unfold HomePage.joinRoom, insert_player.
    destruct (_ || _); [reflexivity|]. destruct (single _); [|reflexivity].
    destruct (has_player _ _); [reflexivity|]. destruct (negb _); reflexivity.
  - now apply sendQuestion_keeps_invariant.
  - unfold HostClient.endGame. destruct confirmed; simpl; [|assumption].
    intros r. unfold activeQuestions, delete_rooms, delete_questions; simpl.
    etransitivity; [apply length_filter_delete|].
    etransitivity; [apply length_filter_delete|]. apply H.
  - apply (@at_most_one_active_questions db); [|assumption].
    unfold HostClient.markAnswerCorrect. destruct (Answer.is_correct a); reflexivity.
  - apply (@at_most_one_active_questions db); [|assumption].
    unfold HostClient.updatePlayerScore. destruct (find _ _); reflexivity.
  - apply (@at_most_one_active_questions db); [|assumption].
    unfold PlayClient.loadPlayerData.
    destruct (single _); [|reflexivity]. simpl.
    destruct (single _); simpl; [destruct (single _); simpl|];
      apply updateConnectionStatus_questions.
  - apply (@at_most_one_active_questions db); [|assumption].
    apply updateConnectionStatus_questions.
  - apply (@at_most_one_active_questions db); [|assumption].
    unfold PlayClient.submitAnswer, insert_answer.
    destruct (PlayClient.currentQuestion c); [|reflexivity].
    destruct (_ || _); [reflexivity|].
    destruct (has_answer _ _); [reflexivity|].
    destruct (negb _); [reflexivity|]. destruct (negb _); reflexivity.
Qed.

Lemma reachable_wf (db : Db.t) : reachable db -> wf db.
Proof.
  induction 1 as [|db db' R W S]; [apply wf_empty | now apply (wf_step W)].
Qed.

Lemma demo_reachable : reachable Demo.db_ab.
Proof.
  apply (@reachable_step Demo.db_a);
    [|exact (step_submitAnswer Demo.db_a
               (PlayClient.setAnswer Demo.bob0 (js "five")) 2500%Z 31%N)].
  apply (@reachable_step Demo.db_q1);
    [|exact (step_submitAnswer Demo.db_q1
               (PlayClient.setAnswer Demo.alice0 (js " 4 ")) 2200%Z 30%N)].
  apply (@reachable_step Demo.db_players);
    [|exact (step_sendQuestion Demo.db_players Demo.host0
               (Some (HostClient.mkQA (js "2+2? ") (js " 4"))) 20%N)].
  apply (@reachable_step Demo.db_alice);
    [|exact (step_joinRoom Demo.db_alice
               (HomePage.mk (js "ABC123") (js "Bob ")) 11%N)].
  apply (@reachable_step Demo.db_room);
    [|exact (step_joinRoom Demo.db_room
               (HomePage.mk (js " abc123 ") (js "Alice")) 10%N)].
  apply (@reachable_step emptyDb);
    [exact reachable_empty
    |exact (step_createRoom emptyDb (js "0.abc123xyz") 7%N 1%N)].
Qed.

Lemma demo_wf : wf Demo.db_ab.
Proof. exact (reachable_wf demo_reachable). Qed.

(** X5. In every database the clients can produce from the empty one, in
    any order and from any client state: row ids are unique in each
    table, room codes are unique, every player and every question
    belongs to a stored room, every answer to a stored player and a
    stored question, and no room has two active questions. *)
Theorem reachable_invariants (db : Db.t) :
  reachable db -> wf db /\ at_most_one_active db.
Proof.
  induction 1 as [|db db' R [W A] S].
  - split; [apply wf_empty|]. intros r. simpl. lia.
  - split; [now apply (wf_step W) | now apply (at_most_one_active_step A)].
Qed.

Lemma reachable_invariants_witness :
  reachable Demo.db_ab /\ wf Demo.db_ab /\ at_most_one_active Demo.db_ab.
Proof.
  split; [exact demo_reachable|]. exact (reachable_invariants demo_reachable).
Defined.

(** ** Grading on a freshly loaded list *)

Lemma filter_key_unique {A} (f : A -> uuid) (l : list A) (x : A) :
  NoDup (map f l) -> In x l -> filter (fun y => N.eqb (f y) (f x)) l = [x].
Proof.
  induction l as [|a l IH]; simpl; intros N; [intros []|intros [->|H]].
  - rewrite N.eqb_refl. f_equal. apply filter_none.
    inversion N as [|? ? Hn _]; subst. intros y Hy. apply N.eqb_neq.
    intros E. apply Hn. rewrite <- E. now apply in_map.
  - inversion N as [|? ? Hn N']; subst.
    destruct (N.eqb_spec (f a) (f x)) as [E|E].
    + exfalso. apply Hn. rewrite E. now apply in_map.
    + now apply IH.
Qed.

Lemma In_loaded_answers (h : HostClient.state) (db : Db.t) (a : Answer.t) :
  In a (HostClient.answers (HostClient.loadAnswersForQuestion h db)) ->
  exists x q,
    In x (Db.answers db) /\ a = HostClient.join_player db x /\
    Answer.room_id x = Some (HostClient.roomId h) /\
    In q (Db.questions db) /\ Question.room_id q = HostClient.roomId h /\
    Question.is_active q = true /\ Answer.question_id x = Question.id q /\
    activeQuestions db (HostClient.roomId h) = [q].
Proof.
  unfold HostClient.loadAnswersForQuestion.
  assert (F : filter (fun q => N.eqb (Question.room_id q) (HostClient.roomId h)
                               && Bool.eqb (Question.is_active q) true)
                     (Db.questions db)
              = activeQuestions db (HostClient.roomId h)).
  { unfold activeQuestions. apply filter_ext. intros q. unfold active_in.
    now rewrite eqb_true. }
  rewrite F. destruct (activeQuestions db (HostClient.roomId h)) as [|q [|q' t]] eqn:A;
    simpl; try contradiction.
  intros H. apply in_map_iff in H. destruct H as [x [E Hx]].
  apply filter_In in Hx. destruct Hx as [Hx S].
  apply andb_true_iff in S. destruct S as [S1 S2].
  assert (Iq : In q (activeQuestions db (HostClient.roomId h))) by (rewrite A; now left).
  unfold activeQuestions in Iq. apply filter_In in Iq. destruct Iq as [Iq Aq].
  unfold active_in in Aq. apply andb_true_iff in Aq. destruct Aq as [Aq1 Aq2].
  exists x, q. repeat split; auto.
  - unfold opt_uuid_eqb in S1. destruct (Answer.room_id x); [|discriminate].
    apply N.eqb_eq in S1. congruence.
  - now apply N.eqb_eq.
  - now apply N.eqb_eq.
Qed.

Lemma find_player_wf (db : Db.t) (i : uuid) :
  wf db -> has_player db i = true ->
  exists p, In p (Db.players db) /\ Player.id p = i /\
            find (fun p => N.eqb (Player.id p) i) (Db.players db) = Some p /\
            filter (fun p => N.eqb (Player.id p) i) (Db.players db) = [p].
Proof.
  intros W H. unfold has_player in H. apply existsb_exists in H.
  destruct H as [p [Hp E]]. apply N.eqb_eq in E. subst i.
  pose proof (filter_key_unique Player.id (Db.players db) p (wf_player_ids W) Hp) as F.
  exists p. repeat split; auto.
  destruct (find _ (Db.players db)) as [p'|] eqn:Fd.
  - apply find_some in Fd. destruct Fd as [Hp' E'].
    assert (In p' (filter (fun y => N.eqb (Player.id y) (Player.id p)) (Db.players db)))
      as I by (apply filter_In; auto).
    rewrite F in I. destruct I as [->|[]]. reflexivity.
  - exfalso. apply (find_none _ _ Fd) in Hp. rewrite N.eqb_refl in Hp. discriminate.
Qed.

(** X6. On a database that satisfies the constraints, marking correct an
    answer taken from the list the host has just loaded adds exactly one
    point to the stored score of the answer's player and flags the
    stored answer; the list the call reloads then shows the answer as
    correct, so that marking it again from that list returns at the
    guard and changes nothing: two clicks give one point. *)
Theorem markAnswerCorrect_on_loaded_answer (h : HostClient.state) (db : Db.t)
        (a : Answer.t) :
  wf db ->
  In a (HostClient.answers (HostClient.loadAnswersForQuestion h db)) ->
  Answer.is_correct a = false ->
  let res := HostClient.markAnswerCorrect (HostClient.loadAnswersForQuestion h db) db a in
  exists s,
    storedScores db (Answer.player_id a) = [s] /\
    storedScores (snd (fst res)) (Answer.player_id a) = [(s + 1)%Z] /\
    (forall a', In a' (HostClient.answers (fst (fst res))) ->
                Answer.id a' = Answer.id a ->
                Answer.is_correct a' = true /\
                HostClient.markAnswerCorrect (fst (fst res)) (snd (fst res)) a'
                = (fst (fst res), snd (fst res), Returned)).
Proof.
  intros W Ha Hc res.
  destruct (In_loaded_answers h db a Ha) as [x [q [Hx [E _]]]].
  assert (Pid : Answer.player_id a = Answer.player_id x) by (subst a; reflexivity).
  destruct (find_player_wf (Answer.player_id x) W (wf_answer_player W x Hx))
    as [p [Hp [Ep [Fd Fl]]]].
  exists (Player.score p).
  assert (S0 : storedScores db (Answer.player_id a) = [Player.score p]).
  { unfold storedScores. rewrite Pid, Fl. reflexivity. }
  split; [exact S0|]. split.
  - subst res. apply (@markAnswerCorrect_fresh_copy _ db a p); auto.
    subst a. unfold HostClient.join_player. simpl. exact Fd.
  - intros a' Ha' Eid.
    assert (C : Answer.is_correct a' = true).
    { subst res. unfold HostClient.markAnswerCorrect in Ha'. rewrite Hc in Ha'.
      cbn [fst snd] in Ha'.
      change (HostClient.answers (HostClient.loadRoomData ?h0 ?d))
        with (HostClient.answers h0) in Ha'.
      apply In_loaded_answers in Ha'. destruct Ha' as [x' [q' [Hx' [E' _]]]].
      cbn [Db.answers] in Hx'. apply In_update in Hx'.
      destruct Hx' as [y [Hy Ey]].
      assert (Answer.id x' = Answer.id a) by (subst a'; exact Eid).
      destruct (N.eqb_spec (Answer.id y) (Answer.id a)) as [Ye|Yn].
      - subst a' x'. reflexivity.
      - subst x'. contradiction. }
    split; [exact C|]. now apply markAnswerCorrect_already_correct.
Qed.

Lemma markAnswerCorrect_on_loaded_answer_witness :
  storedScores
    (snd (fst (HostClient.markAnswerCorrect
                 (HostClient.loadAnswersForQuestion Demo.host1 Demo.db_ab) Demo.db_ab
                 (HostClient.join_player Demo.db_ab
                    (Answer.mk 30%N 10%N 20%N (Some 1%N) (js "4") 1200%Z false None)))))
    10%N
  = [1%Z].
Proof.
  destruct (@markAnswerCorrect_on_loaded_answer Demo.host1 Demo.db_ab
              (HostClient.join_player Demo.db_ab
                 (Answer.mk 30%N 10%N 20%N (Some 1%N) (js "4") 1200%Z false None))
              demo_wf
              (or_introl eq_refl) eq_refl) as [s [S0 [S1 _]]].
  simpl in S0. inversion S0; subst s. exact S1.
Defined.

(** ** A round: question, answers, host list *)

Lemma sendQuestion_completed (h h' : HostClient.state) (db db' : Db.t)
      (qd : option HostClient.QA) (i : uuid) :
  HostClient.sendQuestion h db qd i = (h', db', Completed) ->
  exists q,
    HostClient.questionToSend h qd = Some q /\
    ~ blank (HostClient.text q) /\ ~ blank (HostClient.answer q) /\
    has_question db i = false /\ has_room db (HostClient.roomId h) = true /\
    HostClient.roomId h' = HostClient.roomId h /\
    db' = Db.mk (Db.rooms db) (Db.players db)
                (Db.questions (HostClient.disablePrevious h db)
                   ++ [HostClient.newQuestion h q i])
                (delete (fun a => opt_uuid_eqb (Answer.room_id a) (HostClient.roomId h))
                        (Db.answers db)).
Proof.
  intros E. pose proof (sendQuestion_cases h db qd i) as C.
  rewrite E in C; simpl in C.
  inversion C as [ | | q h0 Hq Ht Ha Hi Hr Hh _ _]; subst.
  exists q. repeat split; auto.
Qed.

Lemma loadAnswers_active (h : HostClient.state) (db : Db.t) (q : Question.t) :
  activeQuestions db (HostClient.roomId h) = [q] ->
  HostClient.answers (HostClient.loadAnswersForQuestion h db) =
  map (HostClient.join_player db)
      (filter (fun a => opt_uuid_eqb (Answer.room_id a) (HostClient.roomId h)
                        && N.eqb (Answer.question_id a) (Question.id q))
              (Db.answers db)).
Proof.
  intros A. unfold HostClient.loadAnswersForQuestion.
  assert (F : filter (fun q => N.eqb (Question.room_id q) (HostClient.roomId h)
                               && Bool.eqb (Question.is_active q) true)
                     (Db.questions db)
              = activeQuestions db (HostClient.roomId h)).
  { unfold activeQuestions. apply filter_ext. intros x. unfold active_in.
    now rewrite eqb_true. }
  rewrite F, A. reflexivity.
Qed.

Lemma active_after_completed (h h' : HostClient.state) (db db' : Db.t)
      (qd : option HostClient.QA) (i : uuid) (q : HostClient.QA) :
  HostClient.sendQuestion h db qd i = (h', db', Completed) ->
  HostClient.questionToSend h qd = Some q ->
  activeQuestions db' (HostClient.roomId h) = [HostClient.newQuestion h q i].
Proof.
  intros E Hq. pose proof (sendQuestion_active h db qd i (HostClient.roomId h)) as A.
  rewrite E in A; simpl in A. rewrite N.eqb_refl, Hq in A. exact A.
Qed.

(** X7. After a sendQuestion that completed, the host's answer list
    loads empty; and once a player whose client shows the new question
    has stored an answer, the list loads as exactly that answer: the
    typed text trimmed, not marked correct, joined with the player's
    stored row. *)
Theorem sendQuestion_starts_empty_round (h h' : HostClient.state) (db db' : Db.t)
        (qd : option HostClient.QA) (i : uuid) :
  HostClient.sendQuestion h db qd i = (h', db', Completed) ->
  HostClient.answers (HostClient.loadAnswersForQuestion h' db') = [] /\
  forall (c c1 : PlayClient.state) (db1 : Db.t) (cq : Question.t) (now : Z) (j : uuid),
    PlayClient.currentQuestion c = Some cq -> Question.id cq = i ->
    PlayClient.playerRoomIdRef c = Some (HostClient.roomId h) ->
    PlayClient.submitAnswer c db' now j = (c1, db1, Completed) ->
    HostClient.answers (HostClient.loadAnswersForQuestion h' db1) =
    [Answer.mk j (PlayClient.playerId c) i (Some (HostClient.roomId h))
               (trim (PlayClient.answer c)) (now - PlayClient.questionStartTime c)
               false
               (find (fun p => N.eqb (Player.id p) (PlayClient.playerId c))
                     (Db.players db'))].
Proof.
  intros E. destruct (sendQuestion_completed _ _ _ _ E) as [q [Hq [_ [_ [Hi [Hr [Hh Edb]]]]]]].
  pose proof (active_after_completed _ _ _ _ E Hq) as A. rewrite <- Hh in A.
  assert (N0 : forall qid,
             filter (fun a => opt_uuid_eqb (Answer.room_id a) (HostClient.roomId h')
                              && N.eqb (Answer.question_id a) qid)
                    (Db.answers db') = []).
  { intros qid. apply filter_none. intros a Ha. rewrite Edb in Ha. simpl in Ha.
    apply In_delete in Ha. destruct Ha as [_ Ha]. rewrite Hh, Ha. reflexivity. }
  split.
  - rewrite (loadAnswers_active h' db' A), N0. reflexivity.
  - intros c c1 db1 cq now j Hc Hid Href S.
    pose proof (submitAnswer_cases c db' now j) as C; rewrite S in C; simpl in C.
    destruct C as [[C _] | [[e [C _]] | [q' [Hq' [_ [_ [_ [_ [_ C]]]]]]]]];
      try (inversion C; fail); try discriminate.
    assert (q' = cq) by congruence; subst q' db1.
    assert (A1 : activeQuestions
                   (Db.mk (Db.rooms db') (Db.players db') (Db.questions db')
                          (Db.answers db' ++
                             [Answer.mk j (PlayClient.playerId c) (Question.id cq)
                                        (PlayClient.playerRoomIdRef c)
                                        (trim (PlayClient.answer c))
                                        (now - PlayClient.questionStartTime c)
                                        false None]))
                   (HostClient.roomId h') = [HostClient.newQuestion h q i])
      by exact A.
    rewrite (loadAnswers_active h' _ A1); cbn [Db.answers].
    rewrite filter_app, N0; simpl.
    rewrite Href, Hid, Hh; simpl; rewrite !N.eqb_refl; simpl.
    reflexivity.
Qed.

Lemma sendQuestion_starts_empty_round_witness :
  HostClient.answers (HostClient.loadAnswersForQuestion Demo.host1 Demo.db_a)
  = [Answer.mk 30%N 10%N 20%N (Some 1%N) (js "4") 1200%Z false
               (Some (Player.mk 10%N (js "Alice") 1%N 0 true))].
Proof.
  exact (proj2 (@sendQuestion_starts_empty_round Demo.host0 Demo.host1
                  Demo.db_players Demo.db_q1
                  (Some (HostClient.mkQA (js "2+2? ") (js " 4"))) 20%N eq_refl)
               (PlayClient.setAnswer Demo.alice0 (js " 4 ")) Demo.alice1 Demo.db_a
               (Question.mk 20%N 1%N (js "2+2?") (Some (js "4")) true)
               2200%Z 30%N eq_refl eq_refl eq_refl eq_refl).
Defined.

Lemma has_question_In (db : Db.t) (i : uuid) :
  has_question db i = true -> exists q, In q (Db.questions db) /\ Question.id q = i.
Proof.
  unfold has_question. intros H. apply existsb_exists in H.
  destruct H as [q [Hq E]]. exists q. split; [assumption | now apply N.eqb_eq].
Qed.

Lemma no_answer_for_fresh_question (db : Db.t) (i : uuid) (a : Answer.t) :
  wf db -> has_question db i = false -> In a (Db.answers db) ->
  Answer.question_id a <> i.
Proof.
  intros W Hi Ha E.
  destruct (has_question_In db _ (wf_answer_question W a Ha)) as [q [Hq Eq]].
  apply (@has_question_false db i q Hi Hq). congruence.
Qed.

Lemma updateConnectionStatus_answers (c : PlayClient.state) (ref : option uuid)
      (db : Db.t) (b : bool) :
  Db.answers (PlayClient.updateConnectionStatus c ref db b) = Db.answers db.
Proof.
  unfold PlayClient.updateConnectionStatus.
  destruct (PlayClient.player c), ref; reflexivity.
Qed.

(** X13. After a sendQuestion that completed, on a database that
    satisfied the constraints, loadPlayerData of any player of the room
    completes and shows the new question as unanswered, with an empty
    input and the clock started at the load; the question row the player
    client holds includes the host's expected answer, trimmed. *)
Theorem sendQuestion_then_loadPlayerData (h h' : HostClient.state) (db db' : Db.t)
        (qd : option HostClient.QA) (i : uuid)
        (c : PlayClient.state) (p : Player.t) (now : Z) :
  wf db ->
  HostClient.sendQuestion h db qd i = (h', db', Completed) ->
  In p (Db.players db) -> Player.room_id p = HostClient.roomId h ->
  PlayClient.playerId c = Player.id p ->
  exists q,
    HostClient.questionToSend h qd = Some q /\
    let res := PlayClient.loadPlayerData c db' now in
    snd res = Completed /\
    PlayClient.currentQuestion (fst (fst res)) = Some (HostClient.newQuestion h q i) /\
    PlayClient.hasAnswered (fst (fst res)) = false /\
    PlayClient.answer (fst (fst res)) = [] /\
    PlayClient.questionStartTime (fst (fst res)) = now /\
    PlayClient.playerRoomIdRef (fst (fst res)) = Some (HostClient.roomId h) /\
    option_map Question.correct_answer (PlayClient.currentQuestion (fst (fst res)))
    = Some (Some (trim (HostClient.answer q))).
Proof.
  intros W E Hp Hr Hid.
  destruct (sendQuestion_completed _ _ _ _ E) as [q [Hq [_ [_ [Hi [_ [_ Edb]]]]]]].
  pose proof (active_after_completed _ _ _ _ E Hq) as A.
  exists q. split; [exact Hq|].
  unfold PlayClient.loadPlayerData.
  assert (P : filter (fun x => N.eqb (Player.id x) (PlayClient.playerId c)) (Db.players db')
              = [p]).
  { rewrite Edb, Hid. simpl. apply filter_key_unique; [exact (wf_player_ids W)|exact Hp]. }
  rewrite P. cbn [single].
  set (db2 := PlayClient.updateConnectionStatus c (Some (Player.room_id p)) db' true).
  assert (Q : filter (fun x => N.eqb (Question.room_id x) (Player.room_id p)
                               && Bool.eqb (Question.is_active x) true)
                     (Db.questions db2) = [HostClient.newQuestion h q i]).
  { unfold db2. rewrite updateConnectionStatus_questions, Hr, <- A.
    unfold activeQuestions. apply filter_ext. intros x. unfold active_in.
    now rewrite eqb_true. }
  rewrite Q. cbn [single].
  assert (N0 : filter (fun a => N.eqb (Answer.player_id a) (PlayClient.playerId c)
                                && N.eqb (Answer.question_id a)
                                         (Question.id (HostClient.newQuestion h q i)))
                      (Db.answers db2) = []).
  { unfold db2. rewrite updateConnectionStatus_answers. apply filter_none.
    intros a Ha. rewrite Edb in Ha. simpl in Ha. apply In_delete in Ha.
    destruct Ha as [Ha _]. apply andb_false_iff. right. apply N.eqb_neq.
    simpl. eapply no_answer_for_fresh_question; eauto. }
  rewrite N0. cbn [single fst snd]. simpl. rewrite Hr. repeat split.
Qed.

Lemma sendQuestion_then_loadPlayerData_witness :
  PlayClient.currentQuestion
    (fst (fst (PlayClient.loadPlayerData (PlayClient.init 11%N) Demo.db_q1 1000%Z)))
  = Some (Question.mk 20%N 1%N (js "2+2?") (Some (js "4")) true).
Proof.
  assert (W : wf Demo.db_players).
  { apply reachable_wf.
    apply (@reachable_step Demo.db_alice);
      [|exact (step_joinRoom Demo.db_alice
                 (HomePage.mk (js "ABC123") (js "Bob ")) 11%N)].
    apply (@reachable_step Demo.db_room);
      [|exact (step_joinRoom Demo.db_room
                 (HomePage.mk (js " abc123 ") (js "Alice")) 10%N)].
    apply (@reachable_step emptyDb);
      [exact reachable_empty
      |exact (step_createRoom emptyDb (js "0.abc123xyz") 7%N 1%N)]. }
  destruct (@sendQuestion_then_loadPlayerData Demo.host0 Demo.host1
              Demo.db_players Demo.db_q1
              (Some (HostClient.mkQA (js "2+2? ") (js " 4"))) 20%N
              (PlayClient.init 11%N) (Player.mk 11%N (js "Bob") 1%N 0 true) 1000%Z
              W eq_refl (or_intror (or_introl eq_refl)) eq_refl eq_refl)
    as [q [Hq [_ [H _]]]].
  simpl in Hq. inversion Hq; subst q. exact H.
Defined.

(** X11. submitAnswer does not look at whether the question the client
    shows is still active.  After the host has sent a new question, a
    player client that still shows the previous question of the room
    stores its answer (the call completes) against that question, which
    is now inactive; and the host's answer list, which loads the answers
    of the active question only, stays empty. *)
Theorem submitAnswer_to_superseded_question (h h' : HostClient.state) (db db' : Db.t)
        (qd : option HostClient.QA) (i : uuid)
        (c : PlayClient.state) (old : Question.t) (now : Z) (j : uuid) :
  wf db ->
  HostClient.sendQuestion h db qd i = (h', db', Completed) ->
  In old (Db.questions db) -> Question.room_id old = HostClient.roomId h ->
  PlayClient.currentQuestion c = Some old ->
  ~ blank (PlayClient.answer c) ->
  PlayClient.hasAnswered c = false -> PlayClient.isSubmitting c = false ->
  has_player db (PlayClient.playerId c) = true -> has_answer db j = false ->
  let res := PlayClient.submitAnswer c db' now j in
  snd res = Completed /\
  Db.answers (snd (fst res)) =
    Db.answers db' ++
      [Answer.mk j (PlayClient.playerId c) (Question.id old) (PlayClient.playerRoomIdRef c)
                 (trim (PlayClient.answer c)) (now - PlayClient.questionStartTime c)
                 false None] /\
  (forall x, In x (Db.questions (snd (fst res))) ->
             Question.id x = Question.id old -> Question.is_active x = false) /\
  HostClient.answers (HostClient.loadAnswersForQuestion h' (snd (fst res))) = [].
Proof.
  intros W E Hold Hroom Hc Hb Hh Hs Hp Hj res.
  destruct (sendQuestion_completed _ _ _ _ E) as [q [Hq [_ [_ [Hi [_ [Hh' Edb]]]]]]].
  pose proof (active_after_completed _ _ _ _ E Hq) as A.
  assert (Hne : Question.id old <> i) by (eapply has_question_false; eauto).
  assert (Qold : forall x, In x (Db.questions db') ->
                           Question.id x = Question.id old -> Question.is_active x = false).
  { intros x Hx Ex. rewrite Edb in Hx. cbn [Db.questions] in Hx.
    apply in_app_or in Hx. destruct Hx as [Hx|[<-|[]]].
    - unfold HostClient.disablePrevious in Hx; cbn [Db.questions] in Hx.
      apply In_update in Hx. destruct Hx as [y [Hy Ey]].
      assert (Iy : Question.id y = Question.id old).
      { rewrite <- Ex, Ey. destruct (_ && _); reflexivity. }
      assert (y = old).
      { apply (@NoDup_map_inj _ _ Question.id (Db.questions db)); auto.
        exact (wf_question_ids W). }
      subst y. rewrite Hroom, N.eqb_refl, eqb_true in Ey. simpl in Ey.
      destruct (Question.is_active old) eqn:Ao; subst x; [reflexivity | exact Ao].
    - simpl in Ex. congruence. }
  assert (S : res =
              (PlayClient.mk (PlayClient.playerId c) (PlayClient.player c)
                             (PlayClient.currentQuestion c) (PlayClient.answer c)
                             true false (PlayClient.questionStartTime c)
                             (Some (now - PlayClient.questionStartTime c)%Z)
                             (PlayClient.playerRoomIdRef c),
               Db.mk (Db.rooms db') (Db.players db') (Db.questions db')
                     (Db.answers db' ++
                        [Answer.mk j (PlayClient.playerId c) (Question.id old)
                                   (PlayClient.playerRoomIdRef c)
                                   (trim (PlayClient.answer c))
                                   (now - PlayClient.questionStartTime c) false None]),
               Completed)).
  { subst res. unfold PlayClient.submitAnswer. rewrite Hc, Hh, Hs.
    assert (T : truthy (trim (PlayClient.answer c)) = true).
    { destruct (truthy _) eqn:T; [reflexivity|].
      apply truthy_false_iff in T. contradiction. }
    rewrite T. simpl. unfold insert_answer. simpl.
    assert (H1 : has_answer db' j = false).
    { unfold has_answer in *. rewrite existsb_false_iff in *.
      intros a Ha. rewrite Edb in Ha. simpl in Ha. apply In_delete in Ha.
      apply Hj. tauto. }
    assert (H2 : has_player db' (PlayClient.playerId c) = true).
    { rewrite Edb. exact Hp. }
    assert (H3 : has_question db' (Question.id old) = true).
    { rewrite Edb. unfold has_question. cbn [Db.questions].
      rewrite existsb_app. apply orb_true_iff. left.
      unfold HostClient.disablePrevious; cbn [Db.questions].
      rewrite existsb_update.
      - apply existsb_exists. exists old. split; [assumption|apply N.eqb_refl].
      - intros x. reflexivity. }
    rewrite H1, H2, H3. reflexivity. }
  rewrite S. cbn [fst snd Db.answers Db.questions].
  split; [reflexivity|]. split; [reflexivity|]. split; [exact Qold|].
  assert (A1 : activeQuestions
                 (Db.mk (Db.rooms db') (Db.players db') (Db.questions db')
                        (Db.answers db' ++
                           [Answer.mk j (PlayClient.playerId c) (Question.id old)
                                      (PlayClient.playerRoomIdRef c)
                                      (trim (PlayClient.answer c))
                                      (now - PlayClient.questionStartTime c) false None]))
                 (HostClient.roomId h') = [HostClient.newQuestion h q i]).
  { rewrite Hh'. exact A. }
  rewrite (loadAnswers_active h' _ A1). cbn [Db.answers].
  rewrite filter_app. simpl.
  assert (N0 : filter (fun a => opt_uuid_eqb (Answer.room_id a) (HostClient.roomId h')
                                && N.eqb (Answer.question_id a) i)
                      (Db.answers db') = []).
  { apply filter_none. intros a Ha. rewrite Edb in Ha. simpl in Ha.
    apply In_delete in Ha. destruct Ha as [_ Ha]. rewrite Hh', Ha. reflexivity. }
  rewrite N0. destruct (N.eqb_spec (Question.id old) i); [contradiction|].
  rewrite andb_false_r. reflexivity.
Qed.

Lemma submitAnswer_to_superseded_question_witness :
  let sent := HostClient.sendQuestion Demo.host2 Demo.db_ab None 21%N in
  let res := PlayClient.submitAnswer (PlayClient.setAnswer Demo.alice0 (js "late"))
                                     (snd (fst sent)) 5000%Z 32%N in
  snd res = Completed /\
  HostClient.answers (HostClient.loadAnswersForQuestion (fst (fst sent)) (snd (fst res)))
  = [].
Proof.
  assert (B : ~ blank (PlayClient.answer (PlayClient.setAnswer Demo.alice0 (js "late")))).
  { intros B. vm_compute in B. discriminate. }
  destruct (@submitAnswer_to_superseded_question
              Demo.host2 (fst (fst (HostClient.sendQuestion Demo.host2 Demo.db_ab None 21%N)))
              Demo.db_ab (snd (fst (HostClient.sendQuestion Demo.host2 Demo.db_ab None 21%N)))
              None 21%N (PlayClient.setAnswer Demo.alice0 (js "late"))
              (Question.mk 20%N 1%N (js "2+2?") (Some (js "4")) true) 5000%Z 32%N
              demo_wf eq_refl (or_introl eq_refl) eq_refl eq_refl B
              eq_refl eq_refl eq_refl eq_refl) as [H1 [_ [_ H2]]].
  split; [exact H1 | exact H2].
Defined.

(** ** After the game has ended *)

Lemma endGame_removes_player (h : HostClient.state) (db : Db.t) (p : Player.t) :
  wf db -> In p (Db.players db) -> Player.room_id p = HostClient.roomId h ->
  has_player (snd (fst (HostClient.endGame h db true))) (Player.id p) = false.
Proof.
  intros W Hp Hr. unfold has_player. apply existsb_false_iff. intros x Hx.
  destruct (endGame_tables h db) as [_ [TP _]]. destruct (TP x Hx) as [Hx0 Hne].
  apply N.eqb_neq. intros E.
  assert (x = p).
  { apply (@NoDup_map_inj _ _ Player.id (Db.players db)); auto.
    exact (wf_player_ids W). }
  subst x. contradiction.
Qed.

(** X9. After a confirmed endGame, on a database that satisfied the
    constraints, every player of the ended room is gone for the player
    pages: the play page is notFound, loadPlayerData reports that the
    player was not found and leaves client and database as they were,
    and submitAnswer by a client of that player never stores a row (it
    returns at the guard or the insert is rejected). *)
Theorem endGame_locks_out_players (h : HostClient.state) (db : Db.t) (p : Player.t)
        (c : PlayClient.state) :
  wf db -> In p (Db.players db) -> Player.room_id p = HostClient.roomId h ->
  PlayClient.playerId c = Player.id p ->
  let db' := snd (fst (HostClient.endGame h db true)) in
  PlayPage db' (Player.id p) = None /\
  (forall now, PlayClient.loadPlayerData c db' now = (c, db', Caught JoueurIntrouvable)) /\
  (forall now j,
      snd (fst (PlayClient.submitAnswer c db' now j)) = db' /\
      (snd (PlayClient.submitAnswer c db' now j) = Returned \/
       exists e, snd (PlayClient.submitAnswer c db' now j) = Caught (DbError e))).
Proof.
  intros W Hp Hr Hid db'.
  pose proof (@endGame_removes_player h db p W Hp Hr) as G. fold db' in G.
  assert (F : filter (fun x => N.eqb (Player.id x) (Player.id p)) (Db.players db') = []).
  { apply filter_none. intros x Hx. unfold has_player in G.
    rewrite existsb_false_iff in G. now apply G. }
  split; [|split].
  - unfold PlayPage. rewrite F. reflexivity.
  - intros now. unfold PlayClient.loadPlayerData. rewrite Hid, F. reflexivity.
  - intros now j.
    pose proof (insert_answer_cases db'
                  (Answer.mk j (PlayClient.playerId c)
                             (match PlayClient.currentQuestion c with
                              | Some q => Question.id q | None => 0%N end)
                             (PlayClient.playerRoomIdRef c) (trim (PlayClient.answer c))
                             (now - PlayClient.questionStartTime c) false None)) as C.
    unfold PlayClient.submitAnswer.
    destruct (PlayClient.currentQuestion c) as [q|]; [|split; [reflexivity|now left]].
    destruct (_ || _); [split; [reflexivity|now left]|].
    destruct (insert_answer db' _) as [e|db1]; simpl.
    + split; [reflexivity|]. right. exists e. reflexivity.
    + destruct C as [_ [C _]]. simpl in C. rewrite Hid, G in C. discriminate.
Qed.

Lemma endGame_locks_out_players_witness :
  PlayClient.loadPlayerData Demo.alice1 Demo.db_end 9000%Z
  = (Demo.alice1, Demo.db_end, Caught JoueurIntrouvable).
Proof.
  exact (proj1 (proj2 (@endGame_locks_out_players Demo.host2 Demo.db_ab
                         (Player.mk 10%N (js "Alice") 1%N 0 true) Demo.alice1
                         demo_wf (or_introl eq_refl) eq_refl eq_refl))
               9000%Z).
Defined.

(** X10. A confirmed endGame deletes nothing of another room: every
    stored room with another id, every player and question of another
    room, and every answer that carries another room's id and belongs to
    a player and a question of another room, is still stored, unchanged,
    after it. *)
Theorem endGame_keeps_other_rooms (h : HostClient.state) (db : Db.t) :
  let db' := snd (fst (HostClient.endGame h db true)) in
  (forall r, In r (Db.rooms db) -> Room.id r <> HostClient.roomId h ->
             In r (Db.rooms db')) /\
  (forall p, In p (Db.players db) -> Player.room_id p <> HostClient.roomId h ->
             In p (Db.players db')) /\
  (forall q, In q (Db.questions db) -> Question.room_id q <> HostClient.roomId h ->
             In q (Db.questions db')) /\
  (forall a, In a (Db.answers db) ->
             Answer.room_id a <> Some (HostClient.roomId h) ->
             (forall p, In p (Db.players db) -> Player.id p = Answer.player_id a ->
                        Player.room_id p <> HostClient.roomId h) ->
             (forall q, In q (Db.questions db) -> Question.id q = Answer.question_id a ->
                        Question.room_id q <> HostClient.roomId h) ->
             In a (Db.answers db')).
Proof.
  assert (G : forall (rs : list Room.t) (i : uuid),
             i <> HostClient.roomId h ->
             existsb (fun r => N.eqb (Room.id r) i)
                     (filter (fun r => N.eqb (Room.id r) (HostClient.roomId h)) rs) = false).
  { intros rs i Hi. apply existsb_false_iff. intros r Hr. apply filter_In in Hr.
    destruct Hr as [_ Hr]. apply N.eqb_eq in Hr. apply N.eqb_neq. congruence. }
  unfold HostClient.endGame, delete_rooms, delete_players, delete_questions,
    delete_answers; simpl.
  split; [|split; [|split]].
  - intros r Hr Hne. apply In_delete. split; [assumption | now apply N.eqb_neq].
  - intros p Hp Hne. apply In_delete. split; [|now apply G].
    apply In_delete. split; [assumption | now apply N.eqb_neq].
  - intros q Hq Hne. apply In_delete. split; [|now apply G].
    apply In_delete. split; [assumption | now apply N.eqb_neq].
  - intros a Ha Hroom HP HQ.
    apply In_delete. split.
    + apply In_delete. split.
      * apply In_delete. split.
        -- apply In_delete. split.
           ++ apply In_delete. split; [assumption|].
              unfold opt_uuid_eqb. destruct (Answer.room_id a) as [x|]; [|reflexivity].
              apply N.eqb_neq. congruence.
           ++ apply existsb_false_iff. intros q Hq. apply filter_In in Hq.
              destruct Hq as [Hq Sq]. apply N.eqb_eq in Sq. apply N.eqb_neq.
              intros E. exact (HQ q Hq E Sq).
        -- apply existsb_false_iff. intros p Hp. apply filter_In in Hp.
           destruct Hp as [Hp Sp]. apply N.eqb_eq in Sp. apply N.eqb_neq.
           intros E. exact (HP p Hp E Sp).
      * apply existsb_false_iff. intros p Hp. apply filter_In in Hp.
        destruct Hp as [Hp Sp]. apply In_delete in Hp. destruct Hp as [Hp Np].
        apply N.eqb_neq. intros E. apply N.eqb_neq in Np.
        rewrite G in Sp by exact Np. discriminate.
    + apply existsb_false_iff. intros q Hq. apply filter_In in Hq.
      destruct Hq as [Hq Sq]. apply In_delete in Hq. destruct Hq as [Hq Nq].
      apply N.eqb_neq in Nq. rewrite G in Sq by exact Nq. discriminate.
Qed.

Lemma endGame_keeps_other_rooms_witness :
  let db2 := fst (HomePage.createRoom Demo.db_ab (js "0.zzz999") 9%N 2%N) in
  In (Room.mk 2%N (js "ZZZ999") (js "Nouvelle partie") (Some 9%N) true)
     (Db.rooms (snd (fst (HostClient.endGame Demo.host2 db2 true)))).
Proof.
  apply (proj1 (endGame_keeps_other_rooms Demo.host2
                  (fst (HomePage.createRoom Demo.db_ab (js "0.zzz999") 9%N 2%N)))).
  - simpl. right. left. reflexivity.
  - simpl. discriminate.
Defined.

(** ** Reloading the player page *)

(** X8. An answer that submitAnswer has stored is found again when the
    player page is loaded afresh: if the database satisfied the
    constraints, the question was the only active question of the
    player's room and the player had no answer to it, then loadPlayerData
    on the new database completes with the same question, hasAnswered
    set, the input holding the stored (trimmed) text and the stored
    response time. *)
Theorem submitAnswer_then_loadPlayerData (c c1 c0 : PlayClient.state) (db db1 : Db.t)
        (now : Z) (i : uuid) (q : Question.t) (p : Player.t) (now' : Z) :
  wf db ->
  PlayClient.submitAnswer c db now i = (c1, db1, Completed) ->
  PlayClient.currentQuestion c = Some q ->
  In p (Db.players db) -> Player.id p = PlayClient.playerId c ->
  activeQuestions db (Player.room_id p) = [q] ->
  answersFor db (PlayClient.playerId c) (Question.id q) = [] ->
  PlayClient.playerId c0 = PlayClient.playerId c ->
  let res := PlayClient.loadPlayerData c0 db1 now' in
  snd res = Completed /\
  PlayClient.currentQuestion (fst (fst res)) = Some q /\
  PlayClient.hasAnswered (fst (fst res)) = true /\
  PlayClient.answer (fst (fst res)) = trim (PlayClient.answer c) /\
  PlayClient.responseTime (fst (fst res)) = Some (now - PlayClient.questionStartTime c)%Z /\
  PlayClient.playerRoomIdRef (fst (fst res)) = Some (Player.room_id p).
Proof.
  intros W S Hq Hp Hid A N0 Hid0.
  pose proof (submitAnswer_cases c db now i) as C; rewrite S in C; simpl in C.
  destruct C as [[C _] | [[e [C _]] | [q' [Hq' [_ [_ [_ [_ [_ C]]]]]]]]];
    try (inversion C; fail); try discriminate.
  assert (q' = q) by congruence. subst q' db1.
  unfold PlayClient.loadPlayerData. cbn [Db.players].
  assert (P : filter (fun x => N.eqb (Player.id x) (PlayClient.playerId c0)) (Db.players db)
              = [p]).
  { rewrite Hid0, <- Hid. apply filter_key_unique; [exact (wf_player_ids W)|exact Hp]. }
  rewrite P. cbn [single].
  set (dbs := Db.mk (Db.rooms db) (Db.players db) (Db.questions db)
                    (Db.answers db ++
                       [Answer.mk i (PlayClient.playerId c) (Question.id q)
                                  (PlayClient.playerRoomIdRef c)
                                  (trim (PlayClient.answer c))
                                  (now - PlayClient.questionStartTime c) false None])).
  set (db2 := PlayClient.updateConnectionStatus c0 (Some (Player.room_id p)) dbs true).
  assert (Q : filter (fun x => N.eqb (Question.room_id x) (Player.room_id p)
                               && Bool.eqb (Question.is_active x) true)
                     (Db.questions db2) = [q]).
  { unfold db2. rewrite updateConnectionStatus_questions. unfold dbs; cbn [Db.questions].
    rewrite <- A. unfold activeQuestions. apply filter_ext. intros x. unfold active_in.
    now rewrite eqb_true. }
  rewrite Q. cbn [single].
  assert (E : filter (fun a => N.eqb (Answer.player_id a) (PlayClient.playerId c0)
                                && N.eqb (Answer.question_id a) (Question.id q))
                     (Db.answers db2)
              = [Answer.mk i (PlayClient.playerId c) (Question.id q)
                           (PlayClient.playerRoomIdRef c) (trim (PlayClient.answer c))
                           (now - PlayClient.questionStartTime c) false None]).
  { unfold db2. rewrite updateConnectionStatus_answers. unfold dbs; cbn [Db.answers].
    rewrite Hid0, filter_app. fold (answersFor db (PlayClient.playerId c) (Question.id q)).
    rewrite N0. simpl. rewrite !N.eqb_refl. reflexivity. }
  rewrite E. cbn [single fst snd]. simpl. repeat split.
Qed.

Lemma submitAnswer_then_loadPlayerData_witness :
  let res := PlayClient.loadPlayerData (PlayClient.init 10%N) Demo.db_a 7000%Z in
  PlayClient.hasAnswered (fst (fst res)) = true /\
  PlayClient.answer (fst (fst res)) = js "4".
Proof.
  assert (W : wf Demo.db_q1).
  { apply reachable_wf.
    apply (@reachable_step Demo.db_players);
      [|exact (step_sendQuestion Demo.db_players Demo.host0
                 (Some (HostClient.mkQA (js "2+2? ") (js " 4"))) 20%N)].
    apply (@reachable_step Demo.db_alice);
      [|exact (step_joinRoom Demo.db_alice
                 (HomePage.mk (js "ABC123") (js "Bob ")) 11%N)].
    apply (@reachable_step Demo.db_room);
      [|exact (step_joinRoom Demo.db_room
                 (HomePage.mk (js " abc123 ") (js "Alice")) 10%N)].
    apply (@reachable_step emptyDb);
      [exact reachable_empty
      |exact (step_createRoom emptyDb (js "0.abc123xyz") 7%N 1%N)]. }
  destruct (@submitAnswer_then_loadPlayerData
              (PlayClient.setAnswer Demo.alice0 (js " 4 ")) Demo.alice1
              (PlayClient.init 10%N) Demo.db_q1 Demo.db_a 2200%Z 30%N
              (Question.mk 20%N 1%N (js "2+2?") (Some (js "4")) true)
              (Player.mk 10%N (js "Alice") 1%N 0 true) 7000%Z
              W eq_refl eq_refl (or_introl eq_refl) eq_refl eq_refl eq_refl eq_refl)
    as [_ [_ [H1 [H2 _]]]].
  split; [exact H1 | exact H2].
Defined.

(** ** Score adjustments in a row *)

Lemma find_update_players (l : list Player.t) (i : uuid) (v : Z) (player : Player.t) :
  find (fun p => N.eqb (Player.id p) i) l = Some player ->
  find (fun p => N.eqb (Player.id p) i)
       (update (fun p => N.eqb (Player.id p) i) (Player.with_score v) l)
  = Some (Player.with_score v player).
Proof.
  unfold update. induction l as [|a l IH]; simpl; [discriminate|].
  destruct (N.eqb (Player.id a) i) eqn:E; simpl; rewrite E.
  - intros H; inversion H; reflexivity.
  - exact IH.
Qed.

Lemma filter_update_players (l : list Player.t) (i : uuid) (v : Z) :
  filter (fun p => N.eqb (Player.id p) i)
         (update (fun p => N.eqb (Player.id p) i) (Player.with_score v) l)
  = map (Player.with_score v) (filter (fun p => N.eqb (Player.id p) i) l).
Proof.
  unfold update. induction l as [|a l IH]; simpl; [reflexivity|].
  destruct (N.eqb (Player.id a) i) eqn:E; simpl; rewrite E; simpl; rewrite IH;
    reflexivity.
Qed.

(** X12. The host's player list follows its own adjustments: after
    updatePlayerScore(p, a) the list holds the score just written, so a
    second call updatePlayerScore(p, b) writes max(0, max(0, s + a) + b),
    s being the score the list held at first.  In particular, from a
    score s >= 0, +a followed by -a (a >= 0) writes s again, whereas from
    0, -1 followed by +1 writes 1. *)
Theorem updatePlayerScore_twice (h : HostClient.state) (db : Db.t) (playerId : uuid)
        (a b : Z) (player : Player.t) :
  find (fun p => N.eqb (Player.id p) playerId) (HostClient.players h) = Some player ->
  let r1 := HostClient.updatePlayerScore h db playerId a in
  let r2 := HostClient.updatePlayerScore (fst (fst r1)) (snd (fst r1)) playerId b in
  let final := Z.max 0 (Z.max 0 (Player.score player + a) + b) in
  snd r2 = Completed /\
  storedScores (snd (fst r2)) playerId = map (fun _ => final) (storedScores db playerId) /\
  option_map Player.score
    (find (fun p => N.eqb (Player.id p) playerId) (HostClient.players (fst (fst r2))))
  = Some final /\
  ((0 <= Player.score player)%Z -> (0 <= a)%Z -> b = (- a)%Z ->
   final = Player.score player).
Proof.
  intros F r1 r2 final.
  assert (E1 : r1 = (HostClient.mk (HostClient.roomId h) (HostClient.room h)
                       (update (fun p => N.eqb (Player.id p) playerId)
                               (Player.with_score (Z.max 0 (Player.score player + a)))
                               (HostClient.players h))
                       (HostClient.currentQuestion h) (HostClient.answers h)
                       (HostClient.isGameEnded h) (HostClient.manualQuestion h)
                       (HostClient.showManualDialog h),
                     Db.mk (Db.rooms db)
                       (update (fun p => N.eqb (Player.id p) playerId)
                               (Player.with_score (Z.max 0 (Player.score player + a)))
                               (Db.players db))
                       (Db.questions db) (Db.answers db),
                     Completed)).
  { unfold r1, HostClient.updatePlayerScore. rewrite F. reflexivity. }
  pose proof (find_update_players _ _ (Z.max 0 (Player.score player + a)) F) as F2.
  assert (E2 : snd r2 = Completed /\
               Db.players (snd (fst r2)) =
                 update (fun p => N.eqb (Player.id p) playerId)
                        (Player.with_score final)
                        (update (fun p => N.eqb (Player.id p) playerId)
                                (Player.with_score (Z.max 0 (Player.score player + a)))
                                (Db.players db)) /\
               HostClient.players (fst (fst r2)) =
                 update (fun p => N.eqb (Player.id p) playerId)
                        (Player.with_score final)
                        (update (fun p => N.eqb (Player.id p) playerId)
                                (Player.with_score (Z.max 0 (Player.score player + a)))
                                (HostClient.players h))).
  { unfold r2. rewrite E1. cbn [fst snd]. unfold HostClient.updatePlayerScore.
    cbn [HostClient.players]. rewrite F2. simpl. auto. }
  destruct E2 as [O [D H2]].
  split; [exact O|]. split; [|split].
  - unfold storedScores. rewrite D, storedScores_update, filter_update_players.
    rewrite !map_map. reflexivity.
  - rewrite H2. rewrite (find_update_players _ _ final F2). reflexivity.
  - intros Hs Ha ->. unfold final. lia.
Qed.

Lemma updatePlayerScore_twice_witness :
  storedScores
    (snd (fst (HostClient.updatePlayerScore
                 (fst (fst (HostClient.updatePlayerScore Demo.host2 Demo.db_ab 10%N (-1)%Z)))
                 (snd (fst (HostClient.updatePlayerScore Demo.host2 Demo.db_ab 10%N (-1)%Z)))
                 10%N 1%Z)))
    10%N
  = [1%Z].
Proof.
  exact (proj1 (proj2 (@updatePlayerScore_twice Demo.host2 Demo.db_ab 10%N (-1)%Z 1%Z
                         (Player.mk 10%N (js "Alice") 1%N 0 true) eq_refl))).
Defined.

(** ** The questions channel of the player client *)

(** X14. An INSERT or UPDATE event carrying an active question opens a
    new round on the player client, whatever its state was: the question
    becomes the current one, hasAnswered is cleared and the input
    emptied, so that a non-blank answer typed next is stored by
    submitAnswer (fresh id, stored player and question) against that
    question, with the response time counted from the event.  An UPDATE
    that deactivates the current question clears it, after which
    submitAnswer returns at the guard.  An INSERT of an inactive
    question, a DELETE, and an UPDATE deactivating another question leave
    the client as it is. *)
Theorem onQuestionsChange_rounds (c : PlayClient.state) (q : Question.t) (now : Z) :
  (Question.is_active q = true ->
   PlayEvents.onQuestionsChange c (PlayEvents.UPDATE q) now
   = PlayEvents.onQuestionsChange c (PlayEvents.INSERT q) now /\
   let c' := PlayEvents.onQuestionsChange c (PlayEvents.INSERT q) now in
   PlayClient.currentQuestion c' = Some q /\
   PlayClient.hasAnswered c' = false /\ PlayClient.answer c' = [] /\
   forall (v : jsstring) (db : Db.t) (t : Z) (j : uuid),
     ~ blank v -> PlayClient.isSubmitting c = false ->
     has_answer db j = false -> has_player db (PlayClient.playerId c) = true ->
     has_question db (Question.id q) = true ->
     let res := PlayClient.submitAnswer (PlayClient.setAnswer c' v) db t j in
     snd res = Completed /\
     Db.answers (snd (fst res)) =
       Db.answers db ++
         [Answer.mk j (PlayClient.playerId c) (Question.id q)
                    (PlayClient.playerRoomIdRef c) (trim v) (t - now) false None]) /\
  (Question.is_active q = false ->
   PlayEvents.onQuestionsChange c (PlayEvents.INSERT q) now = c /\
   PlayEvents.onQuestionsChange c (PlayEvents.DELETE q) now = c /\
   (forall cur, PlayClient.currentQuestion c = Some cur ->
                Question.id cur <> Question.id q ->
                PlayEvents.onQuestionsChange c (PlayEvents.UPDATE q) now = c) /\
   (forall cur, PlayClient.currentQuestion c = Some cur ->
                Question.id cur = Question.id q ->
                let c' := PlayEvents.onQuestionsChange c (PlayEvents.UPDATE q) now in
                PlayClient.currentQuestion c' = None /\
                forall v db t j,
                  PlayClient.submitAnswer (PlayClient.setAnswer c' v) db t j
                  = (PlayClient.setAnswer c' v, db, Returned))).
Proof.
  split.
  - intros A. unfold PlayEvents.onQuestionsChange. rewrite A.
    split; [reflexivity|]. split; [reflexivity|]. split; [reflexivity|].
    split; [reflexivity|].
    intros v db t j Hb Hs Hj Hp Hq.
    unfold PlayClient.submitAnswer, PlayEvents.newQuestion. simpl.
    assert (T : truthy (trim v) = true).
    { destruct (truthy _) eqn:T; [reflexivity|].
      apply truthy_false_iff in T. contradiction. }
    rewrite T, Hs. simpl. unfold insert_answer. simpl. rewrite Hj, Hp, Hq. simpl.
    split; reflexivity.
  - intros A. unfold PlayEvents.onQuestionsChange. rewrite A.
    split; [reflexivity|]. split; [reflexivity|]. split.
    + intros cur Hc Hne. rewrite Hc.
      destruct (N.eqb_spec (Question.id cur) (Question.id q)); [contradiction|reflexivity].
    + intros cur Hc He. rewrite Hc, He, N.eqb_refl. simpl.
      split; [reflexivity|]. intros v db t j. reflexivity.
Qed.

Lemma onQuestionsChange_rounds_witness :
  let q := Question.mk 21%N 1%N (js "3+3?") (Some (js "6")) true in
  let c' := PlayEvents.onQuestionsChange Demo.alice1 (PlayEvents.INSERT q) 9000%Z in
  PlayClient.hasAnswered Demo.alice1 = true /\
  PlayClient.hasAnswered c' = false /\
  PlayClient.currentQuestion c' = Some q.
Proof.
  destruct (proj1 (onQuestionsChange_rounds Demo.alice1
                     (Question.mk 21%N 1%N (js "3+3?") (Some (js "6")) true) 9000%Z)
                  eq_refl) as [_ [H1 [H2 _]]].
  split; [reflexivity|]. split; [exact H2 | exact H1].
Defined.

(** ** Choosing a question from the file *)

Lemma QA_eta (q : HostClient.QA) :
  HostClient.mkQA (HostClient.text q) (HostClient.answer q) = q.
Proof. destruct q; reflexivity. Qed.

(** X16. Choosing the entry of the idx-th question in the Select makes
    the current question the first question of the list that has the
    same text: the idx-th itself when no earlier question has that text
    (always, when the texts are pairwise distinct), otherwise an earlier
    one, with that one's answer. *)
Theorem selectQuestion_first_with_text (l : list HostClient.QA) (idx : nat)
        (q : HostClient.QA) :
  nth_error l idx = Some q ->
  exists k q',
    (k <= idx)%nat /\ nth_error l k = Some q' /\
    HostClient.text q' = HostClient.text q /\
    (forall m x, (m < k)%nat -> nth_error l m = Some x ->
                 HostClient.text x <> HostClient.text q) /\
    HostQuestions.selectQuestion l (HostClient.text q) = Some q' /\
    (NoDup (map HostClient.text l) -> q' = q).
Proof.
  revert idx. induction l as [|a l IH]; intros idx H.
  - destruct idx; discriminate.
  - unfold HostQuestions.selectQuestion. simpl.
    destruct (jsstring_eqb (HostClient.text a) (HostClient.text q)) eqn:E.
    + apply jsstring_eqb_eq in E. exists 0%nat, a. repeat split; auto.
      * lia.
      * intros m x Hm. lia.
      * now rewrite QA_eta.
      * intros N. destruct idx as [|idx]; simpl in H; [congruence|].
        exfalso. simpl in N. inversion N as [|? ? Hn _]; subst. apply Hn.
        rewrite E. apply in_map. eapply nth_error_In; eauto.
    + destruct idx as [|idx]; simpl in H.
      * inversion H; subst. assert (jsstring_eqb (HostClient.text q) (HostClient.text q) = true)
          by now apply jsstring_eqb_eq. congruence.
      * destruct (IH idx H) as [k [q' [Hk [Hn [Ht [Hm [Hs Hd]]]]]]].
        exists (S k), q'. repeat split; auto.
        -- lia.
        -- intros m x Hlt Hx. destruct m as [|m]; simpl in Hx.
           ++ inversion Hx; subst. intros T. apply jsstring_eqb_eq in T. congruence.
           ++ apply (Hm m x); [lia | assumption].
        -- intros N. apply Hd. simpl in N. now inversion N.
Qed.

Lemma selectQuestion_first_with_text_witness :
  let l := [HostClient.mkQA (js "Capital?") (js "Paris");
            HostClient.mkQA (js "2+2?") (js "4");
            HostClient.mkQA (js "Capital?") (js "Rome")] in
  exists k q',
    (k <= 2)%nat /\ nth_error l k = Some q' /\
    HostQuestions.selectQuestion l (js "Capital?") = Some q'.
Proof.
  destruct (@selectQuestion_first_with_text
              [HostClient.mkQA (js "Capital?") (js "Paris");
               HostClient.mkQA (js "2+2?") (js "4");
               HostClient.mkQA (js "Capital?") (js "Rome")]
              2%nat (HostClient.mkQA (js "Capital?") (js "Rome")) eq_refl)
    as [k [q' [Hk [Hn [_ [_ [Hs _]]]]]]].
  exists k, q'. split; [exact Hk|]. split; [exact Hn | exact Hs].
Defined.

(** ** Loading the question file *)

Section LoadQuestions.

Variable num : Type.
Variable num_truthy : num -> bool.
Variable num_is_zero : num -> bool.

Lemma field_not_TypeError (k : jsstring) (fields : list (jsstring * HostQuestions.json num)) :
  HostQuestions.field k fields <> HostQuestions.TypeError.
Proof.
  unfold HostQuestions.field. destruct (find _ _); discriminate.
Qed.

Lemma validQuestion_good (q : HostQuestions.json num) :
  HostQuestions.validQuestion num_truthy q =
  if isNull q then None else Some (goodQuestion q).
Proof.
  destruct q as [|b|n|s|l|fields]; try reflexivity.
  unfold HostQuestions.validQuestion, goodQuestion; simpl.
  pose proof (field_not_TypeError (js "text") fields) as N1.
  pose proof (field_not_TypeError (js "answer") fields) as N2.
  destruct (HostQuestions.field (js "text") fields) as [| |t];
    destruct (HostQuestions.field (js "answer") fields) as [| |a];
    try contradiction; try reflexivity.
  all: try destruct t as [|b|n|s|l|fs]; try destruct a as [|b'|n'|s'|l'|fs']; simpl.
  all: rewrite ?andb_false_r, ?andb_true_r; try reflexivity.
Qed.

Lemma filterValid_good (l : list (HostQuestions.json num)) :
  HostQuestions.filterValid num_truthy l =
  if existsb isNull l then None else Some (filter goodQuestion l).
Proof.
  induction l as [|q l IH]; simpl; [reflexivity|].
  rewrite validQuestion_good, IH.
  destruct (isNull q); simpl; [reflexivity|].
  destruct (existsb isNull l); reflexivity.
Qed.

Lemma length_filter_all {A} (f : A -> bool) (l : list A) :
  Nat.eqb (List.length (filter f l)) (List.length l) = forallb f l.
Proof.
  assert (L : forall m : list A, (List.length (filter f m) <= List.length m)%nat).
  { induction m as [|a m IH]; simpl; [lia|]. destruct (f a); simpl; lia. }
  induction l as [|a l IH]; simpl; [reflexivity|].
  destruct (f a); simpl; [exact IH|].
  apply Nat.eqb_neq. specialize (L l). lia.
Qed.

(** X15. loadQuestions keeps, in order, exactly the elements of the
    array that are objects whose text and answer are both non-empty
    strings, and warns when it dropped any; one null element makes
    the whole load fail and leaves no question at all.  The array may
    also sit under the key "questions" of an object.  A missing or
    unreadable file, or the document null, fail in the same way.  Every
    question kept has a non-empty text and a non-empty answer. *)
Theorem loadQuestions_keeps_valid (l : list (HostQuestions.json num)) :
  HostQuestions.loadQuestions num_truthy num_is_zero (Some (HostQuestions.JArray l))
  = (if existsb isNull l then HostQuestions.LoadError
     else HostQuestions.Loaded (map (@HostQuestions.asQA num) (filter goodQuestion l))
                               (negb (forallb goodQuestion l))) /\
  (forall fields,
      HostQuestions.field (js "questions") fields = HostQuestions.Value (HostQuestions.JArray l) ->
      HostQuestions.loadQuestions num_truthy num_is_zero (Some (HostQuestions.JObject fields))
      = HostQuestions.loadQuestions num_truthy num_is_zero (Some (HostQuestions.JArray l))) /\
  HostQuestions.loadQuestions num_truthy num_is_zero None = HostQuestions.LoadError /\
  HostQuestions.loadQuestions num_truthy num_is_zero (Some HostQuestions.JNull)
  = HostQuestions.LoadError /\
  (forall qa, In qa (map (@HostQuestions.asQA num) (filter goodQuestion l)) ->
              HostClient.text qa <> [] /\ HostClient.answer qa <> []).
Proof.
  split; [|split; [|split; [|split]]].
  - unfold HostQuestions.loadQuestions; simpl. rewrite filterValid_good.
    destruct (existsb isNull l); [reflexivity|].
    rewrite length_filter_all. reflexivity.
  - intros fields F. unfold HostQuestions.loadQuestions; simpl. rewrite F. reflexivity.
  - reflexivity.
  - reflexivity.
  - intros qa H. apply in_map_iff in H. destruct H as [q [<- Hq]].
    apply filter_In in Hq. destruct Hq as [_ G].
    destruct q as [|b|n|s|l'|fields]; try discriminate.
    unfold goodQuestion in G. unfold HostQuestions.asQA; simpl.
    destruct (HostQuestions.field (js "text") fields) as [| |[|b|n|t|l'|fs]];
      try discriminate.
    destruct (HostQuestions.field (js "answer") fields) as [| |[|b|n|a|l'|fs]];
      try discriminate.
    apply andb_true_iff in G. destruct G as [G1 G2].
    split; intros E; rewrite E in *; discriminate.
Qed.

End LoadQuestions.

Lemma loadQuestions_keeps_valid_witness :
  let nt := fun n : N => negb (N.eqb n 0) in
  let nz := fun n : N => N.eqb n 0 in
  let ok := HostQuestions.JObject
              [(js "text", HostQuestions.JString (js "2+2?"));
               (js "answer", HostQuestions.JString (js "4"))] in
  let no_text := HostQuestions.JObject
                   [(js "text", HostQuestions.JString (js ""));
                    (js "answer", HostQuestions.JString (js "x"))] in
  let number_answer := HostQuestions.JObject
                         [(js "text", HostQuestions.JString (js "3+3?"));
                          (js "answer", HostQuestions.JNumber 6%N)] in
  HostQuestions.loadQuestions nt nz
    (Some (HostQuestions.JObject
             [(js "questions", HostQuestions.JArray [ok; no_text; number_answer])]))
  = HostQuestions.Loaded [HostClient.mkQA (js "2+2?") (js "4")] true
  /\
  HostQuestions.loadQuestions nt nz
    (Some (HostQuestions.JArray [ok; HostQuestions.JNull]))
  = HostQuestions.LoadError.
Proof.
  intros nt nz ok no_text number_answer. split.
  - rewrite (proj1 (proj2 (loadQuestions_keeps_valid nt nz [ok; no_text; number_answer]))
                   [(js "questions", HostQuestions.JArray [ok; no_text; number_answer])]
                   eq_refl).
    exact (proj1 (loadQuestions_keeps_valid nt nz [ok; no_text; number_answer])).
  - exact (proj1 (loadQuestions_keeps_valid nt nz [ok; HostQuestions.JNull])).
Defined.

(** ** The leaderboard *)

Lemma insert_by_score_perm (p : Player.t) (l : list Player.t) :
  Permutation (HostClient.insert_by_score p l) (p :: l).
Proof.
  induction l as [|q l IH]; simpl; [reflexivity|].
  destruct (Player.score q <=? Player.score p)%Z; [reflexivity|].
  rewrite IH. apply perm_swap.
Qed.

Lemma order_by_score_desc_perm (l : list Player.t) :
  Permutation (HostClient.order_by_score_desc l) l.
Proof.
  induction l as [|p l IH]; simpl; [reflexivity|].
  rewrite insert_by_score_perm. now constructor.
Qed.

Lemma insert_by_score_sorted (p : Player.t) (l : list Player.t) :
  StronglySorted by_score_desc l ->
  StronglySorted by_score_desc (HostClient.insert_by_score p l).
Proof.
  induction 1 as [|q l S IH F]; simpl.
  - repeat constructor.
  - destruct (Player.score q <=? Player.score p)%Z eqn:E.
    + apply Z.leb_le in E. constructor; [constructor; assumption|].
      constructor; [exact E|].
      rewrite Forall_forall in *. intros x Hx. specialize (F x Hx).
      unfold by_score_desc in *. lia.
    + apply Z.leb_gt in E. constructor; [assumption|].
      rewrite Forall_forall in *. intros x Hx.
      apply (Permutation_in _ (insert_by_score_perm p l)) in Hx.
      destruct Hx as [<-|Hx]; [unfold by_score_desc; lia | now apply F].
Qed.

Lemma order_by_score_desc_sorted (l : list Player.t) :
  StronglySorted by_score_desc (HostClient.order_by_score_desc l).
Proof.
  induction l as [|p l IH]; simpl; [constructor|].
  now apply insert_by_score_sorted.
Qed.

Lemma sorted_app_le (l1 l2 : list Player.t) :
  StronglySorted by_score_desc (l1 ++ l2) ->
  forall x y, In x l1 -> In y l2 -> by_score_desc x y.
Proof.
  induction l1 as [|a l1 IH]; simpl; intros S x y Hx Hy; [contradiction|].
  inversion S as [|? ? S' F]; subst. destruct Hx as [<-|Hx].
  - rewrite Forall_forall in F. apply F. apply in_or_app. now right.
  - now apply IH.
Qed.

(** X17. The leaderboard of a room lists at most 10 players, 10 when the
    room has that many; they are stored players of that room, in order
    of non-increasing score; together with the players left out they are
    exactly the room's players, and no player left out has a higher
    score than a listed one.  totalPlayers is the number of the room's
    players. *)
Theorem leaderboard_top_ten (db : Db.t) (roomId : uuid) :
  let room := filter (fun p => N.eqb (Player.room_id p) roomId) (Db.players db) in
  let shown := PlayEvents.leaderboard db roomId in
  let rest := skipn 10 (PlayEvents.playersData db roomId) in
  List.length shown = Nat.min 10 (List.length room) /\
  PlayEvents.totalPlayers db roomId = List.length room /\
  (forall p, In p shown -> In p (Db.players db) /\ Player.room_id p = roomId) /\
  StronglySorted by_score_desc shown /\
  Permutation (shown ++ rest) room /\
  (forall x y, In x shown -> In y rest -> (Player.score y <= Player.score x)%Z).
Proof.
  intros room shown rest.
  assert (P : Permutation (PlayEvents.playersData db roomId) room)
    by apply order_by_score_desc_perm.
  assert (S : StronglySorted by_score_desc (PlayEvents.playersData db roomId))
    by apply order_by_score_desc_sorted.
  assert (E : shown ++ rest = PlayEvents.playersData db roomId)
    by apply firstn_skipn.
  assert (L : PlayEvents.totalPlayers db roomId = List.length room).
  { unfold PlayEvents.totalPlayers. now apply Permutation_length. }
  split.
  { unfold shown, PlayEvents.leaderboard. rewrite length_firstn.
    rewrite (Permutation_length P). reflexivity. }
  split; [exact L|]. split.
  { intros p Hp.
    assert (In p room).
    { apply (Permutation_in _ P). rewrite <- E. apply in_or_app. now left. }
    unfold room in H. apply filter_In in H. destruct H as [H1 H2].
    split; [assumption | now apply N.eqb_eq]. }
  rewrite <- E in S. split.
  { clear - S. induction shown as [|a l IH]; simpl in *; [constructor|].
    inversion S as [|? ? S' F]; subst. constructor; [now apply IH|].
    rewrite Forall_forall in *. intros x Hx. apply F. apply in_or_app. now left. }
  split; [rewrite E; exact P|].
  intros x y Hx Hy. exact (sorted_app_le _ _ S x y Hx Hy).
Qed.
